(** * Player.ts: the per-frame character controller

    A shallow embedding of [src/Player.ts] and of the parts of its
    collaborators that the controller calls: three.js vectors, quaternions
    and matrices, the Rapier rigid body and its colliders, the browser's
    timeout queue.  The library functions follow the three.js and Rapier
    sources; [Keyboard], [FollowCam], [UI] and [AnimationController] are
    modelled at the interface that Player.ts uses.

    JavaScript numbers are modelled as real numbers: arithmetic is exact,
    [Math.sqrt], [Math.sin], [Math.cos], [Math.acos] are the real functions.
    Rounding, NaN and the infinities of IEEE doubles are outside the model.

    The fields [scene], [world] and [handle] of the class are never read by
    the methods modelled here and are left out. *)

From Stdlib Require Import Reals Lra Lia List Bool String.
Import ListNotations.
Open Scope R_scope.

(** ** Comparisons of numbers, as booleans

    [a > b], [a < b], [a >= b], [a <= b] and [a === b] on numbers. *)

Definition Rgtb (a b : R) : bool := if Rlt_dec b a then true else false.
Definition Rltb (a b : R) : bool := if Rlt_dec a b then true else false.
Definition Rgeb (a b : R) : bool := if Rle_dec b a then true else false.
Definition Rleb (a b : R) : bool := if Rle_dec a b then true else false.
Definition Reqb (a b : R) : bool := if Req_dec_T a b then true else false.

(** ** three.js: Vector3 *)

Module Vector3.

Record t : Type := mk { x : R; y : R; z : R }.

(** [new Vector3()] *)
Definition zero : t := mk 0 0 0.

Definition setX (v : t) (a : R) : t := mk a (y v) (z v).
Definition setY (v : t) (a : R) : t := mk (x v) a (z v).
Definition setZ (v : t) (a : R) : t := mk (x v) (y v) a.

Definition lengthSq (v : t) : R := x v * x v + y v * y v + z v * z v.

Definition length (v : t) : R := sqrt (lengthSq v).

Definition multiplyScalar (v : t) (s : R) : t := mk (x v * s) (y v * s) (z v * s).

(** [divideScalar(s)] is [multiplyScalar(1 / s)]. *)
Definition divideScalar (v : t) (s : R) : t := multiplyScalar v (1 / s).

(** [normalize()] is [divideScalar(this.length() || 1)]: a zero length is
    falsy, so the zero vector is divided by 1. *)
Definition normalize (v : t) : t :=
  divideScalar v (if Reqb (length v) 0 then 1 else length v).

(** [setLength(l)] is [normalize().multiplyScalar(l)]. *)
Definition setLength (v : t) (l : R) : t := multiplyScalar (normalize v) l.

Definition subVectors (a b : t) : t := mk (x a - x b) (y a - y b) (z a - z b).

Definition crossVectors (a b : t) : t :=
  mk (y a * z b - z a * y b) (z a * x b - x a * z b) (x a * y b - y a * x b).

(** [lerp(v, alpha)]: each component moves by [(v.c - this.c) * alpha]. *)
Definition lerp (this v : t) (alpha : R) : t :=
  mk (x this + (x v - x this) * alpha)
     (y this + (y v - y this) * alpha)
     (z this + (z v - z this) * alpha).

Definition distanceToSquared (this v : t) : R :=
  let dx := x this - x v in
  let dy := y this - y v in
  let dz := z this - z v in
  dx * dx + dy * dy + dz * dz.

Definition distanceTo (this v : t) : R := sqrt (distanceToSquared this v).

End Vector3.

(** ** three.js: Euler (order 'XYZ', the default of [new Euler()]) *)

Module Euler.

Record t : Type := mk { x : R; y : R; z : R }.

Definition zero : t := mk 0 0 0.

Definition setY (e : t) (a : R) : t := mk (x e) a (z e).

End Euler.

(** ** three.js: the rotation part of a Matrix4

    [lookAt] writes, and [setFromRotationMatrix] reads, only the upper-left
    3x3 block; [mRC] is row R, column C. *)

Module Matrix4.

Record t : Type := mk {
  m11 : R; m12 : R; m13 : R;
  m21 : R; m22 : R; m23 : R;
  m31 : R; m32 : R; m33 : R }.

Definition identity : t := mk 1 0 0 0 1 0 0 0 1.

(** [lookAt(eye, target, up)] *)
Definition lookAt (eye target up : Vector3.t) : t :=
  let z0 := Vector3.subVectors eye target in
  let z1 := if Reqb (Vector3.lengthSq z0) 0 then Vector3.setZ z0 1 else z0 in
  let z2 := Vector3.normalize z1 in
  let x0 := Vector3.crossVectors up z2 in
  let '(z3, x1) :=
    if Reqb (Vector3.lengthSq x0) 0 then
      let z' :=
        if Reqb (Rabs (Vector3.z up)) 1
        then Vector3.setX z2 (Vector3.x z2 + 0.0001)
        else Vector3.setZ z2 (Vector3.z z2 + 0.0001) in
      let z'' := Vector3.normalize z' in
      (z'', Vector3.crossVectors up z'')
    else (z2, x0) in
  let x2 := Vector3.normalize x1 in
  let y2 := Vector3.crossVectors z3 x2 in
  mk (Vector3.x x2) (Vector3.x y2) (Vector3.x z3)
     (Vector3.y x2) (Vector3.y y2) (Vector3.y z3)
     (Vector3.z x2) (Vector3.z y2) (Vector3.z z3).

End Matrix4.

(** ** three.js: Quaternion *)

Module Quaternion.

Record t : Type := mk { x : R; y : R; z : R; w : R }.

(** [new Quaternion()] *)
Definition identity : t := mk 0 0 0 1.

Definition setX (q : t) (a : R) : t := mk a (y q) (z q) (w q).
Definition setZ (q : t) (a : R) : t := mk (x q) (y q) a (w q).

Definition length (q : t) : R :=
  sqrt (x q * x q + y q * y q + z q * z q + w q * w q).

Definition normalize (q : t) : t :=
  let l := length q in
  if Reqb l 0 then mk 0 0 0 1
  else let l' := 1 / l in mk (x q * l') (y q * l') (z q * l') (w q * l').

Definition dot (a b : t) : R := x a * x b + y a * y b + z a * z b + w a * w b.

(** [equals(q)]: componentwise [===]. *)
Definition equals (a b : t) : bool :=
  Reqb (x a) (x b) && Reqb (y a) (y b) && Reqb (z a) (z b) && Reqb (w a) (w b).

(** [setFromEuler(e)] for the order 'XYZ'. *)
Definition setFromEuler (e : Euler.t) : t :=
  let c1 := cos (Euler.x e / 2) in
  let c2 := cos (Euler.y e / 2) in
  let c3 := cos (Euler.z e / 2) in
  let s1 := sin (Euler.x e / 2) in
  let s2 := sin (Euler.y e / 2) in
  let s3 := sin (Euler.z e / 2) in
  mk (s1 * c2 * c3 + c1 * s2 * s3)
     (c1 * s2 * c3 - s1 * c2 * s3)
     (c1 * c2 * s3 + s1 * s2 * c3)
     (c1 * c2 * c3 - s1 * s2 * s3).

(** [setFromRotationMatrix(m)] *)
Definition setFromRotationMatrix (m : Matrix4.t) : t :=
  let m11 := Matrix4.m11 m in let m12 := Matrix4.m12 m in let m13 := Matrix4.m13 m in
  let m21 := Matrix4.m21 m in let m22 := Matrix4.m22 m in let m23 := Matrix4.m23 m in
  let m31 := Matrix4.m31 m in let m32 := Matrix4.m32 m in let m33 := Matrix4.m33 m in
  let trace := m11 + m22 + m33 in
  if Rgtb trace 0 then
    let s := 0.5 / sqrt (trace + 1) in
    mk ((m32 - m23) * s) ((m13 - m31) * s) ((m21 - m12) * s) (0.25 / s)
  else if Rgtb m11 m22 && Rgtb m11 m33 then
    let s := 2 * sqrt (1 + m11 - m22 - m33) in
    mk (0.25 * s) ((m12 + m21) / s) ((m13 + m31) / s) ((m32 - m23) / s)
  else if Rgtb m22 m33 then
    let s := 2 * sqrt (1 + m22 - m11 - m33) in
    mk ((m12 + m21) / s) (0.25 * s) ((m23 + m32) / s) ((m13 - m31) / s)
  else
    let s := 2 * sqrt (1 + m33 - m11 - m22) in
    mk ((m13 + m31) / s) ((m23 + m32) / s) (0.25 * s) ((m21 - m12) / s).

(** [Math.atan2(b, a)] *)
Definition atan2 (b a : R) : R :=
  if Rgtb a 0 then atan (b / a)
  else if Rltb a 0 then
    if Rgeb b 0 then atan (b / a) + PI else atan (b / a) - PI
  else if Rgtb b 0 then PI / 2
  else if Rltb b 0 then - (PI / 2)
  else 0.

(** [Number.EPSILON] *)
Definition EPSILON : R := / 2 ^ 52.

(** [angleTo(q)] is [2 * acos(|clamp(dot(q), -1, 1)|)]. *)
Definition angleTo (this q : t) : R :=
  2 * acos (Rabs (Rmax (-1) (Rmin 1 (dot this q)))).

(** [slerp(qb, t)] *)
Definition slerp (this qb : t) (s : R) : t :=
  if Reqb s 0 then this
  else if Reqb s 1 then qb
  else
    let cosHalfTheta0 := dot this qb in
    let '(cur, cosHalfTheta) :=
      if Rltb cosHalfTheta0 0
      then (mk (- x qb) (- y qb) (- z qb) (- w qb), - cosHalfTheta0)
      else (qb, cosHalfTheta0) in
    if Rgeb cosHalfTheta 1 then this
    else
      let sqrSinHalfTheta := 1 - cosHalfTheta * cosHalfTheta in
      if Rleb sqrSinHalfTheta EPSILON then
        let r := 1 - s in
        normalize (mk (r * x this + s * x cur) (r * y this + s * y cur)
                      (r * z this + s * z cur) (r * w this + s * w cur))
      else
        let sinHalfTheta := sqrt sqrSinHalfTheta in
        let halfTheta := atan2 sinHalfTheta cosHalfTheta in
        let ratioA := sin ((1 - s) * halfTheta) / sinHalfTheta in
        let ratioB := sin (s * halfTheta) / sinHalfTheta in
        mk (x this * ratioA + x cur * ratioB) (y this * ratioA + y cur * ratioB)
           (z this * ratioA + z cur * ratioB) (w this * ratioA + w cur * ratioB).

(** [rotateTowards(q, step)] *)
Definition rotateTowards (this q : t) (step : R) : t :=
  let angle := angleTo this q in
  if Reqb angle 0 then this
  else slerp this q (Rmin 1 (step / angle)).

(** [Vector3.applyQuaternion(q)]: [v + q.w * t + cross(q.xyz, t)] with
    [t = 2 * cross(q.xyz, v)]. *)
Definition applyQuaternion (v : Vector3.t) (q : t) : Vector3.t :=
  let vx := Vector3.x v in let vy := Vector3.y v in let vz := Vector3.z v in
  let tx := 2 * (y q * vz - z q * vy) in
  let ty := 2 * (z q * vx - x q * vz) in
  let tz := 2 * (x q * vy - y q * vx) in
  Vector3.mk (vx + w q * tx + y q * tz - z q * ty)
             (vy + w q * ty + z q * tx - x q * tz)
             (vz + w q * tz + x q * ty - y q * tx).

End Quaternion.

(** ** three.js: the part of an Object3D the controller touches *)

Module Object3D.

Record t : Type := mk {
  position : Vector3.t;
  quaternion : Quaternion.t;
  up : Vector3.t }.

(** [new Object3D()] *)
Definition new : t := mk Vector3.zero Quaternion.identity (Vector3.mk 0 1 0).

Definition set_position (a : Vector3.t) (o : t) : t := mk a (quaternion o) (up o).
Definition set_quaternion (a : Quaternion.t) (o : t) : t := mk (position o) a (up o).

(** [getWorldPosition(target)]: the follow target is added to the scene
    root, which carries no transform of its own, so its world position is
    its local position. *)
Definition getWorldPosition (o : t) : Vector3.t := position o.

End Object3D.

(** ** Rapier: colliders and the rigid body *)

Module Collider.

Record t : Type := mk {
  halfHeight : R;
  radius : R;
  translation : Vector3.t;
  mass : R;
  friction : R;
  collisionEvents : bool }.

End Collider.

Module RigidBody.

(** [countedMass] is the mass the engine currently counts for the body. *)
Record t : Type := mk {
  translation : Vector3.t;
  linvel : Vector3.t;
  linearDamping : R;
  colliders : list Collider.t;
  countedMass : R }.

Definition setTranslation (b : t) (v : Vector3.t) : t :=
  mk v (linvel b) (linearDamping b) (colliders b) (countedMass b).
Definition setLinvel (b : t) (v : Vector3.t) : t :=
  mk (translation b) v (linearDamping b) (colliders b) (countedMass b).
Definition setLinearDamping (b : t) (d : R) : t :=
  mk (translation b) (linvel b) d (colliders b) (countedMass b).
Definition set_colliders (b : t) (cs : list Collider.t) : t :=
  mk (translation b) (linvel b) (linearDamping b) cs (countedMass b).
Definition set_countedMass (b : t) (m : R) : t :=
  mk (translation b) (linvel b) (linearDamping b) (colliders b) m.

(** The body has no mass of its own: [mass] is the mass of the colliders
    attached to it. *)
Definition mass (b : t) : R :=
  fold_right (fun c acc => Collider.mass c + acc) 0 (colliders b).

(** A world step brings the counted mass up to date with the colliders
    that are attached. *)
Definition recomputeMass (b : t) : t := set_countedMass b (mass b).

(** [applyImpulse(impulse, true)] changes the linear velocity at once, by
    the impulse times the inverse of the counted mass; the translation
    moves only when the world is stepped. *)
Definition applyImpulse (b : t) (impulse : Vector3.t) : t :=
  let invMass := if Reqb (countedMass b) 0 then 0 else / countedMass b in
  setLinvel b (Vector3.mk (Vector3.x (linvel b) + Vector3.x impulse * invMass)
                          (Vector3.y (linvel b) + Vector3.y impulse * invMass)
                          (Vector3.z (linvel b) + Vector3.z impulse * invMass)).

(** [world.removeCollider(body.collider(0), false)]: the collider is
    detached; its mass stays counted until the next world step. *)
Definition removeCollider0 (b : t) : t := set_colliders b (tl (colliders b)).

(** [world.createCollider(shape, body)]: the collider is attached and its
    mass is counted at once. *)
Definition createCollider (shape : Collider.t) (b : t) : t :=
  set_countedMass (set_colliders b (colliders b ++ [shape]))
                  (countedMass b + Collider.mass shape).

End RigidBody.

(** ** The collaborators of the controller, at their interface *)

Module UI.
(** [resets] counts the calls of [ui.reset()]. *)
Record t : Type := mk { resets : nat }.
Definition reset (u : t) : t := mk (S (resets u)).
End UI.

Module Keyboard.
(** [keyMap[code]]: a code that was never pressed is [undefined], falsy. *)
Record t : Type := mk { keyMap : string -> bool }.
Definition new : t := mk (fun _ => false).
Definition set (k : t) (code : string) (down : bool) : t :=
  mk (fun c => if String.eqb c code then down else keyMap k c).
End Keyboard.

Module FollowCam.
(** [yaw] is [followCam.yaw.rotation.y], [pivot] is
    [followCam.pivot.position]. *)
Record t : Type := mk { yaw : R; pivot : Vector3.t }.
Definition set_yaw (a : R) (c : t) : t := mk a (pivot c).
Definition set_pivot (a : Vector3.t) (c : t) : t := mk (yaw c) a.
End FollowCam.

Module AnimationController.
(** [model] is undefined until the avatar has been loaded. *)
Record t : Type := mk { model : option Object3D.t }.
Definition new : t := mk None.
End AnimationController.

(** ** The Player class *)

Record Player : Type := mkPlayer {
  ui : UI.t;
  body : RigidBody.t;
  animationController : option AnimationController.t;
  vector : Vector3.t;
  inputVelocity : Vector3.t;
  euler : Euler.t;
  quaternion : Quaternion.t;
  followTarget : Object3D.t;
  grounded : bool;
  rotationMatrix : Matrix4.t;
  targetQuaternion : Quaternion.t;
  followCam : FollowCam.t;
  keyboard : Keyboard.t;
  wait : bool;
  accelerationFactor : R }.

(** Field assignments [this.f = a]. *)
Definition set_ui (a : UI.t) (p : Player) : Player :=
  mkPlayer a (body p) (animationController p) (vector p) (inputVelocity p) (euler p) (quaternion p) (followTarget p) (grounded p) (rotationMatrix p) (targetQuaternion p) (followCam p) (keyboard p) (wait p) (accelerationFactor p).
Definition set_body (a : RigidBody.t) (p : Player) : Player :=
  mkPlayer (ui p) a (animationController p) (vector p) (inputVelocity p) (euler p) (quaternion p) (followTarget p) (grounded p) (rotationMatrix p) (targetQuaternion p) (followCam p) (keyboard p) (wait p) (accelerationFactor p).
Definition set_animationController (a : option AnimationController.t) (p : Player) : Player :=
  mkPlayer (ui p) (body p) a (vector p) (inputVelocity p) (euler p) (quaternion p) (followTarget p) (grounded p) (rotationMatrix p) (targetQuaternion p) (followCam p) (keyboard p) (wait p) (accelerationFactor p).
Definition set_vector (a : Vector3.t) (p : Player) : Player :=
  mkPlayer (ui p) (body p) (animationController p) a (inputVelocity p) (euler p) (quaternion p) (followTarget p) (grounded p) (rotationMatrix p) (targetQuaternion p) (followCam p) (keyboard p) (wait p) (accelerationFactor p).
Definition set_inputVelocity (a : Vector3.t) (p : Player) : Player :=
  mkPlayer (ui p) (body p) (animationController p) (vector p) a (euler p) (quaternion p) (followTarget p) (grounded p) (rotationMatrix p) (targetQuaternion p) (followCam p) (keyboard p) (wait p) (accelerationFactor p).
Definition set_euler (a : Euler.t) (p : Player) : Player :=
  mkPlayer (ui p) (body p) (animationController p) (vector p) (inputVelocity p) a (quaternion p) (followTarget p) (grounded p) (rotationMatrix p) (targetQuaternion p) (followCam p) (keyboard p) (wait p) (accelerationFactor p).
Definition set_quaternion (a : Quaternion.t) (p : Player) : Player :=
  mkPlayer (ui p) (body p) (animationController p) (vector p) (inputVelocity p) (euler p) a (followTarget p) (grounded p) (rotationMatrix p) (targetQuaternion p) (followCam p) (keyboard p) (wait p) (accelerationFactor p).
Definition set_followTarget (a : Object3D.t) (p : Player) : Player :=
  mkPlayer (ui p) (body p) (animationController p) (vector p) (inputVelocity p) (euler p) (quaternion p) a (grounded p) (rotationMatrix p) (targetQuaternion p) (followCam p) (keyboard p) (wait p) (accelerationFactor p).
Definition set_grounded (a : bool) (p : Player) : Player :=
  mkPlayer (ui p) (body p) (animationController p) (vector p) (inputVelocity p) (euler p) (quaternion p) (followTarget p) a (rotationMatrix p) (targetQuaternion p) (followCam p) (keyboard p) (wait p) (accelerationFactor p).
Definition set_rotationMatrix (a : Matrix4.t) (p : Player) : Player :=
  mkPlayer (ui p) (body p) (animationController p) (vector p) (inputVelocity p) (euler p) (quaternion p) (followTarget p) (grounded p) a (targetQuaternion p) (followCam p) (keyboard p) (wait p) (accelerationFactor p).
Definition set_targetQuaternion (a : Quaternion.t) (p : Player) : Player :=
  mkPlayer (ui p) (body p) (animationController p) (vector p) (inputVelocity p) (euler p) (quaternion p) (followTarget p) (grounded p) (rotationMatrix p) a (followCam p) (keyboard p) (wait p) (accelerationFactor p).
Definition set_followCam (a : FollowCam.t) (p : Player) : Player :=
  mkPlayer (ui p) (body p) (animationController p) (vector p) (inputVelocity p) (euler p) (quaternion p) (followTarget p) (grounded p) (rotationMatrix p) (targetQuaternion p) a (keyboard p) (wait p) (accelerationFactor p).
Definition set_keyboard (a : Keyboard.t) (p : Player) : Player :=
  mkPlayer (ui p) (body p) (animationController p) (vector p) (inputVelocity p) (euler p) (quaternion p) (followTarget p) (grounded p) (rotationMatrix p) (targetQuaternion p) (followCam p) a (wait p) (accelerationFactor p).
Definition set_wait (a : bool) (p : Player) : Player :=
  mkPlayer (ui p) (body p) (animationController p) (vector p) (inputVelocity p) (euler p) (quaternion p) (followTarget p) (grounded p) (rotationMatrix p) (targetQuaternion p) (followCam p) (keyboard p) a (accelerationFactor p).
Definition set_accelerationFactor (a : R) (p : Player) : Player :=
  mkPlayer (ui p) (body p) (animationController p) (vector p) (inputVelocity p) (euler p) (quaternion p) (followTarget p) (grounded p) (rotationMatrix p) (targetQuaternion p) (followCam p) (keyboard p) (wait p) a.

(** The four capsule fields are initialised once and never assigned. *)
Definition originalCapsuleHeight : R := 0.5.
Definition jumpCapsuleHeight : R := 0.25.
Definition originalCapsuleTranslation : Vector3.t := Vector3.mk 0 0.645 0.
Definition jumpCapsuleTranslation : Vector3.t := Vector3.mk 0 0.8 0.

(** [ColliderDesc.capsule(height, 0.15).setTranslation(..).setMass(m)
    .setFriction(0).setActiveEvents(ActiveEvents.COLLISION_EVENTS)] *)
Definition capsuleShape (height : R) (translation : Vector3.t) (m : R) : Collider.t :=
  Collider.mk height 0.15 translation m 0 true.

(** The field initialisers and the constructor.  [position] is the spawn
    translation, [cam] the freshly built follow camera and [u] the UI. *)
Definition constructor (position : Vector3.t) (cam : FollowCam.t) (u : UI.t) : Player :=
  let body0 := RigidBody.mk position Vector3.zero 0 [] 0 in
  let shape := capsuleShape originalCapsuleHeight originalCapsuleTranslation 1 in
  {| ui := u;
     body := RigidBody.createCollider shape body0;
     animationController := None;
     vector := Vector3.zero;
     inputVelocity := Vector3.zero;
     euler := Euler.zero;
     quaternion := Quaternion.identity;
     followTarget := Object3D.new;
     grounded := false;
     rotationMatrix := Matrix4.identity;
     targetQuaternion := Quaternion.identity;
     followCam := cam;
     keyboard := Keyboard.new;
     wait := false;
     accelerationFactor := 1 |}.

Definition updateCapsuleHeight (height : R) (translation : Vector3.t) (p : Player) : Player :=
  let shape := capsuleShape height translation 0.5 in
  let p := set_body (RigidBody.removeCollider0 (body p)) p in
  set_body (RigidBody.createCollider shape (body p)) p.

Definition reset (p : Player) : Player :=
  let p := set_body (RigidBody.setLinvel (body p) (Vector3.mk 0 0 0)) p in
  let p := set_body (RigidBody.setTranslation (body p) (Vector3.mk 0 1 0)) p in
  set_ui (UI.reset (ui p)) p.

(** *** update, lines 92-107: the four directional keys, in source order *)
Definition directionalKeys (keyMap : string -> bool) (v : Vector3.t) (limit : R)
  : Vector3.t * R :=
  let '(v, limit) := if keyMap "KeyW"%string then (Vector3.setZ v (-1), 9.5) else (v, limit) in
  let '(v, limit) := if keyMap "KeyS"%string then (Vector3.setZ v 1, 9.5) else (v, limit) in
  let '(v, limit) := if keyMap "KeyA"%string then (Vector3.setX v (-1), 9.5) else (v, limit) in
  let '(v, limit) := if keyMap "KeyD"%string then (Vector3.setX v 1, 9.5) else (v, limit) in
  (v, limit).

(** *** update, lines 109-116: the acceleration ramp *)
Definition ramp (delta : R) (p : Player) : Player :=
  if Rgtb (Vector3.length (inputVelocity p)) 0 then
    let p := set_accelerationFactor (accelerationFactor p + delta * 0.1) p in
    if Rgtb (accelerationFactor p) 2 then set_accelerationFactor 2 p else p
  else set_accelerationFactor 1 p.

(** *** update, lines 120-125: the jump *)
Definition jump (p : Player) : Player :=
  if negb (wait p) && Keyboard.keyMap (keyboard p) "Space"%string then
    let p := set_wait true p in
    let p := set_inputVelocity (Vector3.setY (inputVelocity p) 5) p in
    updateCapsuleHeight jumpCapsuleHeight jumpCapsuleTranslation p
  else p.

(** *** update, lines 89-126: the local input velocity *)
Definition localVelocity (delta : R) (p : Player) : Player :=
  let p := set_inputVelocity (Vector3.mk 0 0 0) p in
  let limit := 1 in
  if grounded p then
    let '(v, limit) := directionalKeys (Keyboard.keyMap (keyboard p)) (inputVelocity p) limit in
    let p := set_inputVelocity v p in
    let p := ramp delta p in
    let p := set_inputVelocity
               (Vector3.setLength (inputVelocity p) (delta * limit * accelerationFactor p)) p in
    jump p
  else p.

(** *** update, lines 129-134: camera yaw, then the impulse *)
Definition applyYawAndImpulse (p : Player) : Player :=
  let p := set_euler (Euler.setY (euler p) (FollowCam.yaw (followCam p))) p in
  let p := set_quaternion (Quaternion.setFromEuler (euler p)) p in
  let p := set_inputVelocity (Quaternion.applyQuaternion (inputVelocity p) (quaternion p)) p in
  set_body (RigidBody.applyImpulse (body p) (inputVelocity p)) p.

(** *** update, lines 137-139: out of bounds *)
Definition outOfBounds (p : Player) : Player :=
  if Rltb (Vector3.y (RigidBody.translation (body p))) (-3) then reset p else p.

(** The avatar reached by [this.animationController?.model]. *)
Definition avatar (p : Player) : option Object3D.t :=
  match animationController p with
  | Some ac => AnimationController.model ac
  | None => None
  end.

(** Assignment through [this.animationController?.model?]: nothing happens
    when either link is undefined. *)
Definition set_avatar (m : Object3D.t) (p : Player) : Player :=
  match animationController p with
  | Some ac =>
      match AnimationController.model ac with
      | Some _ => set_animationController (Some (AnimationController.mk (Some m))) p
      | None => p
      end
  | None => p
  end.

(** *** update, lines 142-147: follow target, camera pivot, avatar position *)
Definition follow (delta : R) (p : Player) : Player :=
  let p := set_followTarget
             (Object3D.set_position (RigidBody.translation (body p)) (followTarget p)) p in
  let p := set_vector (Object3D.getWorldPosition (followTarget p)) p in
  let p := set_followCam
             (FollowCam.set_pivot
                (Vector3.lerp (FollowCam.pivot (followCam p)) (vector p) (delta * 10))
                (followCam p)) p in
  match avatar p with
  | Some m =>
      set_avatar (Object3D.set_position
                    (Vector3.lerp (Object3D.position m) (vector p) (delta * 20)) m) p
  | None => p
  end.

(** *** update, lines 151-163: orientation of the avatar [m] *)
Definition orient (delta : R) (m : Object3D.t) (p : Player) : Player :=
  let p := set_rotationMatrix
             (Matrix4.lookAt (Object3D.position (followTarget p))
                             (Object3D.position m) (Object3D.up m)) p in
  let p := set_targetQuaternion (Quaternion.setFromRotationMatrix (rotationMatrix p)) p in
  let distance := Vector3.distanceTo (Object3D.position m)
                                     (Object3D.position (followTarget p)) in
  if Rgtb distance 0.0001
     && negb (Quaternion.equals (Object3D.quaternion m) (targetQuaternion p)) then
    let p := set_targetQuaternion (Quaternion.setZ (targetQuaternion p) 0) p in
    let p := set_targetQuaternion (Quaternion.setX (targetQuaternion p) 0) p in
    let p := set_targetQuaternion (Quaternion.normalize (targetQuaternion p)) p in
    set_avatar (Object3D.set_quaternion
                  (Quaternion.rotateTowards (Object3D.quaternion m) (targetQuaternion p)
                                            (delta * 20)) m) p
  else p.

(** How a call ends: by returning, or by the TypeError that
    [Matrix4.lookAt] raises when it reads a component of an undefined
    target (line 151, while the avatar is not loaded). *)
Inductive completion : Type := Returned | TypeError.

(** *** update, lines 89-147: the state in which line 151 is reached *)
Definition beforeOrientation (delta : R) (p : Player) : Player :=
  let p := localVelocity delta p in
  let p := applyYawAndImpulse p in
  let p := outOfBounds p in
  follow delta p.

(** The state at line 164, right after the orientation step; there is
    none when line 151 raised. *)
Definition afterOrientation (delta : R) (p : Player) : option Player :=
  let p := beforeOrientation delta p in
  match avatar p with
  | Some m => Some (orient delta m p)
  | None => None
  end.

Section Controller.

(** [AnimationController.update(delta)] is not part of Player.ts: the
    controller only calls it, last, once per frame. *)
Variable animationUpdate : R -> AnimationController.t -> AnimationController.t.

(** *** update, line 166 *)
Definition animate (delta : R) (p : Player) : Player :=
  match animationController p with
  | Some ac => set_animationController (Some (animationUpdate delta ac)) p
  | None => p
  end.

(** *** update(delta) *)
Definition update (delta : R) (p : Player) : completion * Player :=
  let p := beforeOrientation delta p in
  match avatar p with
  | Some m =>
      let p := orient delta m p in
      (Returned, animate delta p)
  | None => (TypeError, p)
  end.

(** ** The controller in its environment

    [clock] is real time in milliseconds; [timeouts] holds the deadlines of
    the pending [setTimeout] callbacks, each of which runs
    [this.wait = false]. *)
Record System : Type := mkSystem {
  player : Player;
  clock : R;
  timeouts : list R }.

Definition set_player (a : Player) (s : System) : System :=
  mkSystem a (clock s) (timeouts s).

(** [setTimeout(callback, ms)] *)
Definition setTimeout (ms : R) (s : System) : System :=
  mkSystem (player s) (clock s) (timeouts s ++ [clock s + ms]).

Definition setGrounded (g : bool) (s : System) : System :=
  if negb (Bool.eqb g (grounded (player s))) then
    let s := set_player (set_grounded g (player s)) s in
    if g then
      let s := set_player
                 (set_body (RigidBody.setLinearDamping (body (player s)) 4) (player s)) s in
      let s := setTimeout 250 s in
      set_player (updateCapsuleHeight originalCapsuleHeight originalCapsuleTranslation
                                      (player s)) s
    else
      set_player (set_body (RigidBody.setLinearDamping (body (player s)) 0.1) (player s)) s
  else s.

(** The event loop runs the callbacks whose deadline has passed. *)
Definition runTimeouts (s : System) : System :=
  let due := filter (fun d => Rleb d (clock s)) (timeouts s) in
  let pending := filter (fun d => negb (Rleb d (clock s))) (timeouts s) in
  mkSystem (fold_left (fun p _ => set_wait false p) due (player s)) (clock s) pending.

(** What happens to the controller, from outside. *)
Inductive event : Type :=
| Frame (delta : R)                        (* the render loop calls update(delta) *)
| Contact (g : bool)                       (* a contact event calls setGrounded(g) *)
| Key (code : string) (down : bool)        (* keydown / keyup *)
| Yaw (angle : R)                          (* the mouse turns the camera *)
| Elapse (ms : R)                          (* real time passes *)
| Timeouts                                 (* the event loop runs due timeouts *)
| WorldStep (translation linvel : Vector3.t) (* the physics world steps and moves the body *)
| Init                                     (* init() assigns the animation controller *)
| Loaded (m : Object3D.t).                 (* the avatar model has been loaded *)

Definition step (s : System) (e : event) : System :=
  match e with
  | Frame delta => set_player (snd (update delta (player s))) s
  | Contact g => setGrounded g s
  | Key code down =>
      set_player (set_keyboard (Keyboard.set (keyboard (player s)) code down) (player s)) s
  | Yaw angle =>
      set_player (set_followCam (FollowCam.set_yaw angle (followCam (player s))) (player s)) s
  | Elapse ms => mkSystem (player s) (clock s + ms) (timeouts s)
  | Timeouts => runTimeouts s
  | WorldStep tr lv =>
      set_player (set_body (RigidBody.setLinvel
                              (RigidBody.setTranslation
                                 (RigidBody.recomputeMass (body (player s))) tr) lv)
                           (player s)) s
  | Init => set_player (set_animationController (Some AnimationController.new) (player s)) s
  | Loaded m =>
      match animationController (player s) with
      | Some _ => set_player (set_animationController
                                (Some (AnimationController.mk (Some m))) (player s)) s
      | None => s
      end
  end.

Definition run (s : System) (evs : list event) : System := fold_left step evs s.

(** Frame times and elapsed times are not negative. *)
Definition valid (e : event) : Prop :=
  match e with
  | Frame delta => 0 <= delta
  | Elapse ms => 0 <= ms
  | _ => True
  end.

(** The system right after [new Player(...)]. *)
Definition boot (position : Vector3.t) (cam : FollowCam.t) (u : UI.t) (t0 : R) : System :=
  mkSystem (constructor position cam u) t0 [].

Definition reachable (s : System) : Prop :=
  exists position cam u t0 evs,
    Forall valid evs /\ s = run (boot position cam u t0) evs.

End Controller.

(** ** Vocabulary of the properties *)

(** A directional key is held. *)
Definition directional (keyMap : string -> bool) : bool :=
  keyMap "KeyW"%string || keyMap "KeyS"%string || keyMap "KeyA"%string || keyMap "KeyD"%string.

(** The guard of the jump in [update]: line 91 and line 120. *)
Definition jumps (p : Player) : bool :=
  grounded p && negb (wait p) && Keyboard.keyMap (keyboard p) "Space"%string.

(** The impulse that [update(delta)] hands to [body.applyImpulse]. *)
Definition impulse (delta : R) (p : Player) : Vector3.t :=
  inputVelocity (applyYawAndImpulse (localVelocity delta p)).

(** A rotation about the vertical axis only. *)
Definition yawOnly (q : Quaternion.t) : Prop :=
  Quaternion.x q = 0 /\ Quaternion.z q = 0.

Definition avatarYawOnly (p : Player) : Prop :=
  match avatar p with
  | Some m => yawOnly (Object3D.quaternion m)
  | None => True
  end.

(** The fields that the avatar steps of [update] (lines 142-166) never
    assign. *)
Definition core (p : Player) :=
  (grounded p, wait p, accelerationFactor p, keyboard p, euler p, body p,
   inputVelocity p, ui p, FollowCam.yaw (followCam p)).

(** What every reachable controller satisfies. *)
Definition inv (p : Player) : Prop :=
  Euler.x (euler p) = 0 /\ Euler.z (euler p) = 0 /\
  1 <= accelerationFactor p <= 2 /\
  List.length (RigidBody.colliders (body p)) = 1%nat.

(** The avatar of an animation controller, if loaded, is turned about the
    vertical axis only. *)
Definition modelYawOnly (ac : AnimationController.t) : Prop :=
  match AnimationController.model ac with
  | Some m => yawOnly (Object3D.quaternion m)
  | None => True
  end.

(** An avatar that gets loaded is turned about the vertical axis only (the
    identity orientation of a fresh model is). *)
Definition loadsYawOnly (e : event) : Prop :=
  match e with
  | Loaded m => yawOnly (Object3D.quaternion m)
  | _ => True
  end.

(** No contact event: the controller stays on the ground, or in the air. *)
Definition noContact (e : event) : Prop :=
  match e with
  | Contact _ => False
  | _ => True
  end.

(** An animation controller that leaves the avatar as it is. *)
Definition stillAnimation (delta : R) (ac : AnimationController.t) : AnimationController.t := ac.

(** ** The control state

    The part of the system that decides jumps and the acceleration ramp,
    and what each event does to it.  [control_step] below shows that the
    controller, run as written, follows [controlStep]. *)
Record Control : Type := mkControl {
  c_grounded : bool;
  c_wait : bool;
  c_factor : R;
  c_keyboard : Keyboard.t;
  c_clock : R;
  c_timeouts : list R }.

Definition control (s : System) : Control :=
  mkControl (grounded (player s)) (wait (player s)) (accelerationFactor (player s))
            (keyboard (player s)) (clock s) (timeouts s).

Definition c_jumps (c : Control) : bool :=
  c_grounded c && negb (c_wait c) && Keyboard.keyMap (c_keyboard c) "Space"%string.

Definition controlStep (c : Control) (e : event) : Control :=
  match e with
  | Frame delta =>
      mkControl (c_grounded c) (c_wait c || c_jumps c)
        (if c_grounded c then
           if directional (Keyboard.keyMap (c_keyboard c)) then
             if Rgtb (c_factor c + delta * 0.1) 2 then 2 else c_factor c + delta * 0.1
           else 1
         else c_factor c)
        (c_keyboard c) (c_clock c) (c_timeouts c)
  | Contact g =>
      mkControl g (c_wait c) (c_factor c) (c_keyboard c) (c_clock c)
        (if g && negb (c_grounded c) then c_timeouts c ++ [c_clock c + 250]
         else c_timeouts c)
  | Key code down =>
      mkControl (c_grounded c) (c_wait c) (c_factor c)
        (Keyboard.set (c_keyboard c) code down) (c_clock c) (c_timeouts c)
  | Elapse ms =>
      mkControl (c_grounded c) (c_wait c) (c_factor c) (c_keyboard c)
        (c_clock c + ms) (c_timeouts c)
  | Timeouts =>
      mkControl (c_grounded c)
        (if existsb (fun d => Rleb d (c_clock c)) (c_timeouts c) then false else c_wait c)
        (c_factor c) (c_keyboard c) (c_clock c)
        (filter (fun d => negb (Rleb d (c_clock c))) (c_timeouts c))
  | Yaw _ | WorldStep _ _ | Init | Loaded _ => c
  end.

(** The cooldown is on and no pending timeout is due before [T]. *)
Definition cooling (T : R) (c : Control) : Prop :=
  c_wait c = true /\ Forall (fun d => T <= d) (c_timeouts c) /\ T <= c_clock c + 250.

(** In the air with the cooldown off. *)
Definition airborneIdle (c : Control) : Prop :=
  c_grounded c = false /\ c_wait c = false.

(** ** Sample systems *)

(** A controller spawned at the origin at time 0. *)
Definition spawn : System :=
  boot Vector3.zero (FollowCam.mk 0 Vector3.zero) (UI.mk 0) 0.

(** The same, once [init()] has resolved with an avatar at the origin. *)
Definition ready : System :=
  run stillAnimation spawn [Init; Loaded Object3D.new].

(** Walk forward on the ground for one (long) frame, release the key and
    leave the ground. *)
Definition walkedOff : System :=
  run stillAnimation ready
    [Contact true; Key "KeyW" true; Frame 5; Key "KeyW" false; Contact false].

(** On the ground with the forward key held. *)
Definition walking : System :=
  run stillAnimation ready [Contact true; Key "KeyW" true].

(** On the ground for 200 ms, the jump key held, the landing timeout
    (due at 250 ms) still pending. *)
Definition beforeJump : System :=
  run stillAnimation ready [Contact true; Key "Space" true; Elapse 200].

(** The frame at 200 ms jumps. *)
Definition firstJump : System := step stillAnimation beforeJump (Frame 0.016).

(** The body leaves the ground; at 260 ms the old timeout has run and the
    body touches down again, on a ledge. *)
Definition secondAttempt : System :=
  run stillAnimation firstJump [Contact false; Elapse 60; Timeouts; Contact true].

(** On the ground, the jump key held, the landing timeout long gone. *)
Definition settled : System :=
  run stillAnimation ready [Contact true; Elapse 300; Timeouts; Key "Space" true].

(** The body has fallen below the floor. *)
Definition fallen : System :=
  step stillAnimation ready (WorldStep (Vector3.mk 0 (-4) 0) (Vector3.mk 0 (-9) 0)).

(** On the ground with all four directional keys held. *)
Definition allKeys : System :=
  run stillAnimation ready
    [Contact true; Key "KeyW" true; Key "KeyS" true; Key "KeyA" true; Key "KeyD" true].

(** In the air after the first jump, the crouch-jump capsule attached. *)
Definition jumpedOff : System := run stillAnimation firstJump [Contact false].

(** A jump at 300 ms, a short hop, a landing at 400 ms on a ledge (its
    timeout is due at 650 ms), the jump key released; at 500 ms, still on
    the ledge. *)
Definition onLedge : System :=
  run stillAnimation settled
    [Frame 0.016; Key "Space" false; Contact false; Elapse 100; Contact true; Elapse 100].

(** A frame on the ledge: no jump. *)
Definition hopped : System := step stillAnimation onLedge (Frame 0.016).

(** The controller walks off the ledge and lands at 600 ms, with the jump
    key pressed again. *)
Definition landedAgain : System :=
  run stillAnimation hopped [Contact false; Elapse 100; Contact true; Key "Space" true].

(** On the ground with forward and back held, and nothing else. *)
Definition backAndForth : System :=
  run stillAnimation ready [Contact true; Key "KeyW" true; Key "KeyS" true].

(** On the ground with left and right held, and nothing else. *)
Definition leftAndRight : System :=
  run stillAnimation ready [Contact true; Key "KeyA" true; Key "KeyD" true].

(** * Properties *)

(** ** Numbers *)

Ltac Rdec :=
  unfold Rgtb, Rltb, Rgeb, Rleb, Reqb in *;
  repeat match goal with
         | |- context [Rlt_dec ?a ?b] => destruct (Rlt_dec a b)
         | |- context [Rle_dec ?a ?b] => destruct (Rle_dec a b)
         | |- context [Req_dec_T ?a ?b] => destruct (Req_dec_T a b)
         end;
  try reflexivity; try lra.

Lemma Rgtb_true (a b : R) : b < a -> Rgtb a b = true.
Proof. intros; Rdec. Qed.

Lemma Rgtb_false (a b : R) : a <= b -> Rgtb a b = false.
Proof. intros; Rdec. Qed.

Lemma Rltb_true (a b : R) : a < b -> Rltb a b = true.
Proof. intros; Rdec. Qed.

Lemma Rltb_false (a b : R) : b <= a -> Rltb a b = false.
Proof. intros; Rdec. Qed.

Lemma Rleb_true (a b : R) : a <= b -> Rleb a b = true.
Proof. intros; Rdec. Qed.

Lemma Rleb_false (a b : R) : b < a -> Rleb a b = false.
Proof. intros; Rdec. Qed.

Lemma lengthSq_nonneg (v : Vector3.t) : 0 <= Vector3.lengthSq v.
Proof. unfold Vector3.lengthSq; nra. Qed.

(** [length() > 0] holds exactly when the squared length is positive. *)
Lemma length_positive (v : Vector3.t) :
  Rgtb (Vector3.length v) 0 = Rgtb (Vector3.lengthSq v) 0.
Proof.
  unfold Vector3.length.
  pose proof (lengthSq_nonneg v) as Hn.
  destruct (Rlt_dec 0 (Vector3.lengthSq v)) as [Hp | Hz].
  - rewrite !Rgtb_true; auto using sqrt_lt_R0.
  - assert (Vector3.lengthSq v = 0) as -> by lra.
    rewrite sqrt_0. reflexivity.
Qed.

Lemma setLength_zero (l : R) : Vector3.setLength (Vector3.mk 0 0 0) l = Vector3.mk 0 0 0.
Proof.
  unfold Vector3.setLength, Vector3.normalize, Vector3.divideScalar,
    Vector3.multiplyScalar; simpl.
  f_equal; ring.
Qed.

Lemma applyQuaternion_zero (q : Quaternion.t) :
  Quaternion.applyQuaternion (Vector3.mk 0 0 0) q = Vector3.mk 0 0 0.
Proof. unfold Quaternion.applyQuaternion; simpl; f_equal; ring. Qed.

(** A quaternion built from an Euler triple with no X and no Z angle turns
    about the vertical axis only. *)
Lemma setFromEuler_yaw (e : Euler.t) :
  Euler.x e = 0 -> Euler.z e = 0 ->
  Quaternion.x (Quaternion.setFromEuler e) = 0 /\
  Quaternion.z (Quaternion.setFromEuler e) = 0.
Proof.
  intros Hx Hz. unfold Quaternion.setFromEuler; simpl.
  rewrite Hx, Hz.
  replace (0 / 2) with 0 by lra.
  rewrite sin_0, cos_0. split; ring.
Qed.

(** Such a rotation leaves the vertical component of a vector alone. *)
Lemma applyQuaternion_yaw_y (v : Vector3.t) (q : Quaternion.t) :
  Quaternion.x q = 0 -> Quaternion.z q = 0 ->
  Vector3.y (Quaternion.applyQuaternion v q) = Vector3.y v.
Proof.
  intros Hx Hz. unfold Quaternion.applyQuaternion; simpl.
  rewrite Hx, Hz. ring.
Qed.

(** ** Which fields each stage of [update] leaves alone *)

Ltac split_ifs :=
  repeat (simpl;
          match goal with
          | |- context [match ?x with _ => _ end] => destruct x eqn:?
          end);
  simpl.

Lemma follow_core (delta : R) (p : Player) : core (follow delta p) = core p.
Proof. unfold core, follow, set_avatar, avatar; split_ifs; reflexivity. Qed.

Lemma orient_core (delta : R) (m : Object3D.t) (p : Player) :
  core (orient delta m p) = core p.
Proof. unfold core, orient, set_avatar; split_ifs; reflexivity. Qed.

Lemma animate_core anim (delta : R) (p : Player) : core (animate anim delta p) = core p.
Proof. unfold core, animate; split_ifs; reflexivity. Qed.

Lemma update_core anim (delta : R) (p : Player) :
  core (snd (update anim delta p)) = core (outOfBounds (applyYawAndImpulse (localVelocity delta p))).
Proof.
  unfold update, beforeOrientation.
  destruct (avatar _); simpl.
  - rewrite animate_core, orient_core, follow_core. reflexivity.
  - apply follow_core.
Qed.

Lemma core_fields (p q : Player) :
  core p = core q ->
  grounded p = grounded q /\ wait p = wait q /\
  accelerationFactor p = accelerationFactor q /\ keyboard p = keyboard q /\
  euler p = euler q /\ body p = body q /\ inputVelocity p = inputVelocity q /\
  ui p = ui q /\ FollowCam.yaw (followCam p) = FollowCam.yaw (followCam q).
Proof. unfold core; intros H; injection H; intros; repeat split; assumption. Qed.

Lemma outOfBounds_fields (p : Player) :
  let q := outOfBounds p in
  grounded q = grounded p /\ wait q = wait p /\
  accelerationFactor q = accelerationFactor p /\ keyboard q = keyboard p /\
  euler q = euler p /\ inputVelocity q = inputVelocity p /\
  RigidBody.colliders (body q) = RigidBody.colliders (body p) /\
  followCam q = followCam p.
Proof. unfold outOfBounds, reset; split_ifs; repeat split; reflexivity. Qed.

Lemma applyYawAndImpulse_fields (p : Player) :
  let q := applyYawAndImpulse p in
  grounded q = grounded p /\ wait q = wait p /\
  accelerationFactor q = accelerationFactor p /\ keyboard q = keyboard p /\
  Euler.x (euler q) = Euler.x (euler p) /\ Euler.z (euler q) = Euler.z (euler p) /\
  RigidBody.colliders (body q) = RigidBody.colliders (body p) /\
  RigidBody.translation (body q) = RigidBody.translation (body p) /\
  ui q = ui p /\
  inputVelocity q =
    Quaternion.applyQuaternion (inputVelocity p)
      (Quaternion.setFromEuler (Euler.setY (euler p) (FollowCam.yaw (followCam p)))) /\
  followCam q = followCam p.
Proof. unfold applyYawAndImpulse; simpl; repeat split; reflexivity. Qed.

(** ** The local input velocity *)

Lemma directionalKeys_lengthSq (keyMap : string -> bool) (limit : R) :
  Rgtb (Vector3.lengthSq (fst (directionalKeys keyMap (Vector3.mk 0 0 0) limit))) 0
  = directional keyMap.
Proof.
  unfold directionalKeys, directional.
  destruct (keyMap "KeyW"%string), (keyMap "KeyS"%string),
    (keyMap "KeyA"%string), (keyMap "KeyD"%string); simpl;
    unfold Vector3.lengthSq; simpl;
    first [ apply Rgtb_true; lra | apply Rgtb_false; lra ].
Qed.

Lemma jump_fields (p : Player) :
  let q := jump p in
  grounded q = grounded p /\ accelerationFactor q = accelerationFactor p /\
  keyboard q = keyboard p /\ euler q = euler p /\
  wait q = (wait p || Keyboard.keyMap (keyboard p) "Space"%string) /\
  followCam q = followCam p /\ ui q = ui p.
Proof.
  unfold jump, updateCapsuleHeight.
  destruct (wait p) eqn:Hw, (Keyboard.keyMap (keyboard p) "Space"%string) eqn:Hs; simpl;
    rewrite ?Hw, ?Hs; repeat split; reflexivity.
Qed.

Lemma ramp_fields (delta : R) (p : Player) :
  let q := ramp delta p in
  grounded q = grounded p /\ wait q = wait p /\ keyboard q = keyboard p /\
  euler q = euler p /\ body q = body p /\ inputVelocity q = inputVelocity p /\
  followCam q = followCam p /\ ui q = ui p.
Proof. unfold ramp; split_ifs; repeat split; reflexivity. Qed.

Lemma ramp_accelerationFactor (delta : R) (p : Player) :
  accelerationFactor (ramp delta p) =
  if Rgtb (Vector3.lengthSq (inputVelocity p)) 0 then
    if Rgtb (accelerationFactor p + delta * 0.1) 2 then 2
    else accelerationFactor p + delta * 0.1
  else 1.
Proof.
  unfold ramp. rewrite length_positive.
  destruct (Rgtb (Vector3.lengthSq (inputVelocity p)) 0); simpl; [ | reflexivity ].
  destruct (Rgtb (accelerationFactor p + delta * 0.1) 2); reflexivity.
Qed.

(** The acceleration factor after the movement stage of a frame. *)
Lemma localVelocity_accelerationFactor (delta : R) (p : Player) :
  accelerationFactor (localVelocity delta p) =
  if grounded p then
    if directional (Keyboard.keyMap (keyboard p)) then
      if Rgtb (accelerationFactor p + delta * 0.1) 2 then 2
      else accelerationFactor p + delta * 0.1
    else 1
  else accelerationFactor p.
Proof.
  unfold localVelocity; simpl.
  destruct (grounded p); [ | reflexivity ].
  destruct (directionalKeys _ _ _) as [v limit] eqn:Hk.
  match goal with
  | |- accelerationFactor (jump ?q) = _ => destruct (jump_fields q) as (_ & -> & _)
  end.
  simpl. rewrite ramp_accelerationFactor. simpl.
  replace v with (fst (directionalKeys (Keyboard.keyMap (keyboard p)) (Vector3.mk 0 0 0) 1))
    by (rewrite Hk; reflexivity).
  rewrite directionalKeys_lengthSq. reflexivity.
Qed.

Lemma update_accelerationFactor anim (delta : R) (p : Player) :
  accelerationFactor (snd (update anim delta p)) =
  accelerationFactor (localVelocity delta p).
Proof.
  destruct (core_fields _ _ (update_core anim delta p)) as (_ & _ & -> & _).
  destruct (outOfBounds_fields (applyYawAndImpulse (localVelocity delta p)))
    as (_ & _ & -> & _).
  destruct (applyYawAndImpulse_fields (localVelocity delta p)) as (_ & _ & -> & _).
  reflexivity.
Qed.

Lemma directionalKeys_y (keyMap : string -> bool) (v : Vector3.t) (limit : R) :
  Vector3.y (fst (directionalKeys keyMap v limit)) = Vector3.y v.
Proof.
  unfold directionalKeys.
  destruct (keyMap "KeyW"%string), (keyMap "KeyS"%string),
    (keyMap "KeyA"%string), (keyMap "KeyD"%string); reflexivity.
Qed.

Lemma setLength_y (v : Vector3.t) (l : R) :
  Vector3.y v = 0 -> Vector3.y (Vector3.setLength v l) = 0.
Proof.
  intros Hy. unfold Vector3.setLength, Vector3.normalize, Vector3.divideScalar,
    Vector3.multiplyScalar; simpl.
  rewrite Hy. ring.
Qed.

(** The body after [updateCapsuleHeight]: the first collider is gone and
    the new shape is attached, last. *)
Lemma updateCapsuleHeight_colliders (height : R) (translation : Vector3.t) (p : Player) :
  RigidBody.colliders (body (updateCapsuleHeight height translation p)) =
  tl (RigidBody.colliders (body p)) ++ [capsuleShape height translation 0.5].
Proof. reflexivity. Qed.

(** What the movement stage does besides the acceleration ramp. *)
Lemma localVelocity_fields (delta : R) (p : Player) :
  let q := localVelocity delta p in
  grounded q = grounded p /\ keyboard q = keyboard p /\ euler q = euler p /\
  followCam q = followCam p /\ ui q = ui p /\
  wait q = (wait p || jumps p) /\
  Vector3.y (inputVelocity q) = (if jumps p then 5 else 0) /\
  RigidBody.colliders (body q) =
    (if jumps p
     then tl (RigidBody.colliders (body p)) ++
          [capsuleShape jumpCapsuleHeight jumpCapsuleTranslation 0.5]
     else RigidBody.colliders (body p)) /\
  RigidBody.translation (body q) = RigidBody.translation (body p).
Proof.
  unfold localVelocity, jumps; simpl.
  destruct (grounded p) eqn:Hg; simpl.
  2:{ rewrite Hg, orb_false_r. repeat split; reflexivity. }
  destruct (directionalKeys _ _ _) as [v limit] eqn:Hk.
  assert (Vector3.y v = 0) as Hv.
  { replace v with (fst (directionalKeys (Keyboard.keyMap (keyboard p)) (Vector3.mk 0 0 0) 1))
      by (rewrite Hk; reflexivity).
    rewrite directionalKeys_y. reflexivity. }
  set (r := ramp delta (set_inputVelocity v (set_inputVelocity (Vector3.mk 0 0 0) p))).
  destruct (ramp_fields delta (set_inputVelocity v (set_inputVelocity (Vector3.mk 0 0 0) p)))
    as (Rg & Rw & Rk & Re & Rb & Ri & Rc & Ru).
  fold r in Rg, Rw, Rk, Re, Rb, Ri, Rc, Ru. simpl in *.
  unfold jump, updateCapsuleHeight; simpl.
  rewrite Rw, Rk.
  destruct (wait p) eqn:Hw, (Keyboard.keyMap (keyboard p) "Space"%string) eqn:Hs; simpl;
    rewrite ?Rg, ?Rw, ?Rk, ?Re, ?Rb, ?Rc, ?Ru, ?Hg, ?Hw, ?Ri;
    repeat split; try reflexivity; apply setLength_y; assumption.
Qed.

(** What a whole frame does to the fields the claims are about. *)
Lemma update_fields anim (delta : R) (p : Player) :
  let q := snd (update anim delta p) in
  grounded q = grounded p /\ keyboard q = keyboard p /\
  wait q = (wait p || jumps p) /\
  Euler.x (euler q) = Euler.x (euler p) /\ Euler.z (euler q) = Euler.z (euler p) /\
  FollowCam.yaw (followCam q) = FollowCam.yaw (followCam p) /\
  inputVelocity q = impulse delta p /\
  RigidBody.colliders (body q) =
    (if jumps p
     then tl (RigidBody.colliders (body p)) ++
          [capsuleShape jumpCapsuleHeight jumpCapsuleTranslation 0.5]
     else RigidBody.colliders (body p)).
Proof.
  intros q. subst q.
  destruct (core_fields _ _ (update_core anim delta p))
    as (Cg & Cw & _ & Ck & Ce & Cb & Ci & _ & Cy).
  destruct (outOfBounds_fields (applyYawAndImpulse (localVelocity delta p)))
    as (Og & Ow & _ & Ok & Oe & Oi & Oc & Of).
  destruct (applyYawAndImpulse_fields (localVelocity delta p))
    as (Ag & Aw & _ & Ak & Aex & Aez & Ac & _ & _ & _ & Af).
  destruct (localVelocity_fields delta p) as (Lg & Lk & Le & Lc & _ & Lw & _ & Lcol & _).
  rewrite Cg, Ck, Cw, Ce, Cb, Ci, Cy, Og, Ok, Ow, Oe, Oi, Oc, Of, Ag, Ak, Aw, Aex, Aez, Ac,
    Af, Lg, Lk, Le, Lw, Lcol, Lc.
  repeat split; reflexivity.
Qed.

(** The vertical component of the impulse is the jump speed or nothing. *)
Lemma impulse_y (delta : R) (p : Player) :
  Euler.x (euler p) = 0 -> Euler.z (euler p) = 0 ->
  Vector3.y (impulse delta p) = if jumps p then 5 else 0.
Proof.
  intros Hx Hz. unfold impulse.
  destruct (applyYawAndImpulse_fields (localVelocity delta p))
    as (_ & _ & _ & _ & _ & _ & _ & _ & _ & -> & _).
  destruct (localVelocity_fields delta p) as (_ & _ & He & _ & _ & _ & Hy & _).
  rewrite <- Hy.
  apply applyQuaternion_yaw_y; apply setFromEuler_yaw; simpl; rewrite He; assumption.
Qed.

(** ** Reachable states *)

Lemma tl_app_length {A : Type} (l : list A) (a : A) :
  List.length l = 1%nat -> List.length (tl l ++ [a]) = 1%nat.
Proof. destruct l as [ | b [ | c l ] ]; simpl; intros H; try discriminate; reflexivity. Qed.

Lemma inv_constructor (position : Vector3.t) (cam : FollowCam.t) (u : UI.t) :
  inv (constructor position cam u).
Proof. unfold inv; simpl. repeat split; try reflexivity; lra. Qed.

Lemma inv_update anim (delta : R) (p : Player) :
  0 <= delta -> inv p -> inv (snd (update anim delta p)).
Proof.
  intros Hd (Hx & Hz & Ha & Hc).
  destruct (update_fields anim delta p) as (_ & _ & _ & Ex & Ez & _ & _ & Ec).
  unfold inv. rewrite Ex, Ez, Ec, update_accelerationFactor, localVelocity_accelerationFactor.
  repeat split; try assumption.
  - destruct (grounded p); [ | lra ].
    destruct (directional _); [ | lra ].
    unfold Rgtb; destruct (Rlt_dec _ _); lra.
  - destruct (grounded p); [ | lra ].
    destruct (directional _); [ | lra ].
    unfold Rgtb; destruct (Rlt_dec _ _); lra.
  - destruct (jumps p); [ apply tl_app_length | ]; assumption.
Qed.

Lemma setGrounded_fields (g : bool) (s : System) :
  let s' := setGrounded g s in
  wait (player s') = wait (player s) /\
  accelerationFactor (player s') = accelerationFactor (player s) /\
  euler (player s') = euler (player s) /\
  keyboard (player s') = keyboard (player s) /\
  grounded (player s') = g /\
  clock s' = clock s /\
  timeouts s' =
    (if g && negb (grounded (player s)) then timeouts s ++ [clock s + 250] else timeouts s) /\
  RigidBody.colliders (body (player s')) =
    (if g && negb (grounded (player s))
     then tl (RigidBody.colliders (body (player s))) ++
          [capsuleShape originalCapsuleHeight originalCapsuleTranslation 0.5]
     else RigidBody.colliders (body (player s))).
Proof.
  unfold setGrounded.
  destruct g, (grounded (player s)) eqn:Hg; simpl; rewrite ?Hg; repeat split; reflexivity.
Qed.

Lemma runTimeouts_fields (s : System) :
  let s' := runTimeouts s in
  grounded (player s') = grounded (player s) /\
  accelerationFactor (player s') = accelerationFactor (player s) /\
  euler (player s') = euler (player s) /\
  keyboard (player s') = keyboard (player s) /\
  body (player s') = body (player s) /\
  clock s' = clock s.
Proof.
  unfold runTimeouts; simpl.
  generalize (filter (fun d => Rleb d (clock s)) (timeouts s)) as due.
  generalize (player s) as p.
  intros p due; revert p.
  induction due as [ | d due IH ]; intros p; simpl.
  - repeat split; reflexivity.
  - destruct (IH (set_wait false p)) as (-> & -> & -> & -> & -> & _).
    repeat split; reflexivity.
Qed.

Lemma inv_step anim (s : System) (e : event) :
  valid e -> inv (player s) -> inv (player (step anim s e)).
Proof.
  intros Hv Hi. destruct e; cbn [step valid] in *.
  - apply inv_update; assumption.
  - destruct Hi as (Hx & Hz & Ha & Hc).
    destruct (setGrounded_fields g s) as (_ & Ea & Ee & _ & _ & _ & _ & Ec).
    unfold inv. rewrite Ea, Ee, Ec.
    repeat split; try assumption; try lra.
    destruct (g && negb (grounded (player s))); [ apply tl_app_length | ]; assumption.
  - exact Hi.
  - exact Hi.
  - exact Hi.
  - destruct Hi as (Hx & Hz & Ha & Hc).
    destruct (runTimeouts_fields s) as (_ & Ea & Ee & _ & Eb & _).
    unfold inv. rewrite Ea, Ee, Eb. repeat split; try assumption; lra.
  - exact Hi.
  - exact Hi.
  - destruct (animationController (player s)); exact Hi.
Qed.

Lemma run_snoc anim (s : System) (evs : list event) (e : event) :
  run anim s (evs ++ [e]) = step anim (run anim s evs) e.
Proof. unfold run. rewrite fold_left_app. reflexivity. Qed.

Lemma inv_run anim (evs : list event) (s : System) :
  Forall valid evs -> inv (player s) -> inv (player (run anim s evs)).
Proof.
  revert s. induction evs as [ | e evs IH ]; intros s Hv Hi; simpl.
  - exact Hi.
  - inversion Hv; subst. apply IH; [ assumption | ]. apply inv_step; assumption.
Qed.

Lemma reachable_inv anim (s : System) : reachable anim s -> inv (player s).
Proof.
  intros (position & cam & u & t0 & evs & Hv & ->).
  apply inv_run; [ assumption | ]. apply inv_constructor.
Qed.

Lemma reachable_boot anim position cam u t0 : reachable anim (boot position cam u t0).
Proof. exists position, cam, u, t0, []. split; [ constructor | reflexivity ]. Qed.

Lemma reachable_run anim (s : System) (evs : list event) :
  reachable anim s -> Forall valid evs -> reachable anim (run anim s evs).
Proof.
  intros (position & cam & u & t0 & evs0 & Hv & ->) Hv'.
  exists position, cam, u, t0, (evs0 ++ evs). split.
  - apply Forall_app; split; assumption.
  - unfold run. rewrite fold_left_app. reflexivity.
Qed.

(** ** The controller follows the control state machine *)

Lemma runTimeouts_wait (s : System) :
  wait (player (runTimeouts s)) =
  if existsb (fun d => Rleb d (clock s)) (timeouts s) then false else wait (player s).
Proof.
  unfold runTimeouts; simpl.
  generalize (player s) as p.
  induction (timeouts s) as [ | d ds IH ]; intros p; simpl.
  - reflexivity.
  - destruct (Rleb d (clock s)); simpl.
    + rewrite IH. simpl. destruct (existsb _ ds); reflexivity.
    + apply IH.
Qed.

Lemma control_step anim (s : System) (e : event) :
  control (step anim s e) = controlStep (control s) e.
Proof.
  destruct e; cbn [step controlStep]; unfold control at 1.
  - cbn [player clock timeouts set_player].
    destruct (update_fields anim delta (player s)) as (-> & -> & -> & _).
    rewrite update_accelerationFactor, localVelocity_accelerationFactor.
    reflexivity.
  - destruct (setGrounded_fields g s) as (-> & -> & _ & -> & -> & -> & -> & _).
    reflexivity.
  - reflexivity.
  - reflexivity.
  - reflexivity.
  - rewrite runTimeouts_wait.
    destruct (runTimeouts_fields s) as (-> & -> & _ & -> & _ & _).
    reflexivity.
  - reflexivity.
  - reflexivity.
  - destruct (animationController (player s)); reflexivity.
Qed.

Lemma control_run anim (evs : list event) (s : System) :
  control (run anim s evs) = fold_left controlStep evs (control s).
Proof.
  revert s. induction evs as [ | e evs IH ]; intros s.
  - reflexivity.
  - change (run anim s (e :: evs)) with (run anim (step anim s e) evs).
    rewrite IH, control_step. reflexivity.
Qed.

Lemma frame_factor anim (s : System) (delta : R) :
  accelerationFactor (snd (update anim delta (player s))) =
  c_factor (controlStep (control s) (Frame delta)).
Proof. rewrite <- (control_step anim). reflexivity. Qed.

Lemma frame_wait anim (s : System) (delta : R) :
  wait (snd (update anim delta (player s))) =
  c_wait (controlStep (control s) (Frame delta)).
Proof. rewrite <- (control_step anim). reflexivity. Qed.

Lemma control_grounded (s : System) : grounded (player s) = c_grounded (control s).
Proof. reflexivity. Qed.

Lemma control_wait (s : System) : wait (player s) = c_wait (control s).
Proof. reflexivity. Qed.

Lemma control_factor (s : System) : accelerationFactor (player s) = c_factor (control s).
Proof. reflexivity. Qed.

Lemma control_keyboard (s : System) : keyboard (player s) = c_keyboard (control s).
Proof. reflexivity. Qed.

Lemma control_clock (s : System) : clock s = c_clock (control s).
Proof. reflexivity. Qed.

(** The impulse of a frame, read off the control state. *)
Lemma frame_impulse_y anim (s : System) (delta : R) :
  inv (player s) ->
  Vector3.y (inputVelocity (player (step anim s (Frame delta)))) =
  if c_jumps (control s) then 5 else 0.
Proof.
  intros (Hx & Hz & _). cbn [step player set_player].
  destruct (update_fields anim delta (player s)) as (_ & _ & _ & _ & _ & _ & -> & _).
  apply impulse_y; assumption.
Qed.

(** Resolving the comparisons of concrete numbers. *)
Ltac Rcompare :=
  repeat match goal with
         | |- context [Rgtb ?a ?b] =>
             first [ rewrite (Rgtb_true a b) by lra | rewrite (Rgtb_false a b) by lra ]
         | |- context [Rleb ?a ?b] =>
             first [ rewrite (Rleb_true a b) by lra | rewrite (Rleb_false a b) by lra ]
         | |- context [Rltb ?a ?b] =>
             first [ rewrite (Rltb_true a b) by lra | rewrite (Rltb_false a b) by lra ]
         end.

(** Running the control state machine on a concrete trace. *)
Ltac control_eval :=
  repeat (progress
    (unfold directional, c_jumps;
     cbn [fold_left controlStep c_grounded c_wait c_factor c_keyboard c_clock c_timeouts
          c_jumps directional Keyboard.keyMap Keyboard.set Keyboard.new
          app existsb filter andb orb negb];
     repeat match goal with
            | |- context [String.eqb ?a ?b] =>
                let v := eval vm_compute in (String.eqb a b) in
                change (String.eqb a b) with v
            end;
     Rcompare)).

Lemma control_spawn : control spawn = mkControl false false 1 Keyboard.new 0 [].
Proof. reflexivity. Qed.

Lemma control_ready : control ready = mkControl false false 1 Keyboard.new 0 [].
Proof. unfold ready. rewrite control_run, control_spawn. reflexivity. Qed.

(** ** The grounded flag after construction *)

(** C1, as stated, fails: right after [new Player(...)], before any call
    of [setGrounded], the grounded flag is not true. *)
Lemma spawn_not_grounded : grounded (player spawn) <> true.
Proof. simpl. discriminate. Qed.

(** C1, amended: the state machine starts Airborne.  Right after the
    constructor the grounded flag is false, whatever the spawn position,
    so that the first [setGrounded(true)] is a transition: it sets the
    flag and raises the linear damping to 4. *)
Theorem constructor_starts_airborne (position : Vector3.t) (cam : FollowCam.t) (u : UI.t)
    (t0 : R) :
  grounded (constructor position cam u) = false /\
  grounded (player (setGrounded true (boot position cam u t0))) = true /\
  RigidBody.linearDamping (body (player (setGrounded true (boot position cam u t0)))) = 4.
Proof. repeat split; reflexivity. Qed.

(** ** The acceleration factor *)

Lemma valid_frames (delta : R) (n : nat) : 0 <= delta -> Forall valid (repeat (Frame delta) n).
Proof. intros Hd. induction n; simpl; constructor; auto. Qed.

Lemma reachable_ready : reachable stillAnimation ready.
Proof.
  apply reachable_run; [ apply reachable_boot | ].
  repeat constructor.
Qed.

Lemma control_walkedOff :
  control walkedOff =
  mkControl false false 1.5
    (Keyboard.set (Keyboard.set Keyboard.new "KeyW" true) "KeyW" false) 0 [250].
Proof.
  unfold walkedOff. rewrite control_run, control_ready. control_eval.
  repeat f_equal; lra.
Qed.

Lemma reachable_walkedOff : reachable stillAnimation walkedOff.
Proof.
  apply reachable_run; [ apply reachable_ready | ].
  repeat constructor; cbn [valid]; lra.
Qed.

(** C2, as stated, fails.  Walk forward on the ground for a (long) frame,
    release the key and leave the ground: the next frame has no
    directional key held, and the factor is still 1.5. *)
Lemma airborne_frame_keeps_factor :
  reachable stillAnimation walkedOff /\
  grounded (player walkedOff) = false /\
  directional (Keyboard.keyMap (keyboard (player walkedOff))) = false /\
  accelerationFactor (snd (update stillAnimation 0.016 (player walkedOff))) = 1.5 /\
  accelerationFactor (snd (update stillAnimation 0.016 (player walkedOff))) <> 1.
Proof.
  rewrite frame_factor, control_grounded, control_keyboard, control_walkedOff.
  split; [ exact reachable_walkedOff | ].
  control_eval. repeat split; try reflexivity. lra.
Qed.

(** C2, amended: in every reachable state the factor lies in [1, 2]; a
    frame with no directional key held leaves it at exactly 1 when the
    controller is grounded, and leaves it unchanged when it is airborne. *)
Theorem accelerationFactor_range_and_reset anim (s : System) :
  reachable anim s ->
  1 <= accelerationFactor (player s) <= 2 /\
  forall delta,
    directional (Keyboard.keyMap (keyboard (player s))) = false ->
    accelerationFactor (snd (update anim delta (player s))) =
    if grounded (player s) then 1 else accelerationFactor (player s).
Proof.
  intros Hr. split.
  - apply (reachable_inv anim s Hr).
  - intros delta Hk.
    rewrite update_accelerationFactor, localVelocity_accelerationFactor, Hk.
    reflexivity.
Qed.

Lemma accelerationFactor_range_and_reset_witness :
  reachable stillAnimation ready /\
  1 <= accelerationFactor (player ready) <= 2 /\
  forall delta,
    directional (Keyboard.keyMap (keyboard (player ready))) = false ->
    accelerationFactor (snd (update stillAnimation delta (player ready))) =
    if grounded (player ready) then 1 else accelerationFactor (player ready).
Proof.
  split; [ exact reachable_ready | ].
  apply (accelerationFactor_range_and_reset stillAnimation ready).
  exact reachable_ready.
Defined.

(** ** The ramp while a key stays held *)

Lemma forward_directional (keyMap : string -> bool) :
  keyMap "KeyW"%string = true -> directional keyMap = true.
Proof. intros H. unfold directional. rewrite H. reflexivity. Qed.

(** After [n] frames of length [delta] on the ground with a directional key
    held, the factor has grown by [n * delta * 0.1], up to the cap. *)
Lemma frames_factor (delta : R) (n : nat) (c : Control) :
  0 <= delta -> c_grounded c = true ->
  directional (Keyboard.keyMap (c_keyboard c)) = true ->
  c_factor c <= 2 ->
  c_factor (fold_left controlStep (repeat (Frame delta) n) c) =
  Rmin 2 (c_factor c + INR n * (delta * 0.1)).
Proof.
  intros Hd. revert c.
  induction n as [ | n IH ]; intros c Hg Hk Hf.
  - simpl. unfold Rmin. destruct (Rle_dec _ _); lra.
  - change (fold_left controlStep (repeat (Frame delta) (S n)) c)
      with (fold_left controlStep (repeat (Frame delta) n) (controlStep c (Frame delta))).
    rewrite IH; cbn [controlStep c_grounded c_keyboard c_factor]; try assumption.
    + rewrite Hg, Hk, S_INR.
      pose proof (pos_INR n) as Hn.
      unfold Rgtb, Rmin.
      destruct (Rlt_dec _ _); repeat destruct (Rle_dec _ _); nra.
    + rewrite Hg, Hk. unfold Rgtb. destruct (Rlt_dec _ _); lra.
Qed.

Lemma control_walking :
  control walking = mkControl true false 1 (Keyboard.set Keyboard.new "KeyW" true) 0 [250].
Proof.
  unfold walking. rewrite control_run, control_ready. control_eval.
  repeat f_equal; lra.
Qed.

(** C3, as stated, fails: after the 60 frames the factor is 1.096, still
    0.904 short of 2.0. *)
Lemma sixty_frames_reach_1096 :
  grounded (player walking) = true /\
  accelerationFactor (player walking) = 1 /\
  Keyboard.keyMap (keyboard (player walking)) "KeyW" = true /\
  accelerationFactor (player (run stillAnimation walking (repeat (Frame 0.016) 60))) = 1.096 /\
  accelerationFactor (player (run stillAnimation walking (repeat (Frame 0.016) 60))) <> 2.
Proof.
  assert (accelerationFactor (player (run stillAnimation walking (repeat (Frame 0.016) 60)))
          = 1.096) as Ha.
  { rewrite control_factor, control_run, frames_factor; rewrite ?control_walking;
      try reflexivity; cbn [c_factor]; try lra.
    rewrite INR_IZR_INZ. cbn [Z.of_nat Pos.of_succ_nat Pos.succ].
    unfold Rmin. destruct (Rle_dec _ _); lra. }
  rewrite Ha, control_grounded, control_factor, control_keyboard, control_walking.
  repeat split; try reflexivity. lra.
Qed.

(** C3, amended: from factor 1.0, on the ground with the forward key held
    and frames of 0.016 s, the factor after [n] frames is
    [min(2, 1 + n * 0.0016)].  It never exceeds 2.0, it grows strictly
    with every frame up to frame 625, it is 1.096 after the 60 frames of
    the scenario, and it is 2.0 from frame 625 on. *)
Theorem forward_ramp anim (s : System) :
  grounded (player s) = true ->
  accelerationFactor (player s) = 1 ->
  Keyboard.keyMap (keyboard (player s)) "KeyW" = true ->
  let factor n := accelerationFactor (player (run anim s (repeat (Frame 0.016) n))) in
  (forall n, factor n = Rmin 2 (1 + INR n * 0.0016)) /\
  (forall n, factor n <= 2) /\
  (forall n, (n < 625)%nat -> factor n < factor (S n)) /\
  factor 60%nat = 1.096 /\
  (forall n, (625 <= n)%nat -> factor n = 2).
Proof.
  intros Hg Ha Hk factor.
  assert (forall n, factor n = Rmin 2 (1 + INR n * 0.0016)) as Hf.
  { intros n. unfold factor.
    rewrite control_factor, control_run, frames_factor.
    - cbn [control c_factor]. rewrite Ha. f_equal. lra.
    - lra.
    - exact Hg.
    - apply forward_directional. exact Hk.
    - cbn [control c_factor]. lra. }
  assert (INR 625 = 625) as H625.
  { rewrite INR_IZR_INZ. f_equal. }
  split; [ exact Hf | ].
  split; [ | split; [ | split ] ].
  - intros n. rewrite Hf. apply Rmin_l.
  - intros n Hn. rewrite !Hf, S_INR.
    apply lt_INR in Hn. rewrite H625 in Hn.
    pose proof (pos_INR n).
    unfold Rmin. repeat destruct (Rle_dec _ _); lra.
  - rewrite Hf, INR_IZR_INZ. cbn [Z.of_nat Pos.of_succ_nat Pos.succ].
    unfold Rmin. destruct (Rle_dec _ _); lra.
  - intros n Hn. rewrite Hf.
    apply le_INR in Hn. rewrite H625 in Hn.
    unfold Rmin. destruct (Rle_dec _ _); lra.
Qed.

Lemma forward_ramp_witness :
  let factor n :=
    accelerationFactor (player (run stillAnimation walking (repeat (Frame 0.016) n))) in
  (forall n, factor n = Rmin 2 (1 + INR n * 0.0016)) /\
  (forall n, factor n <= 2) /\
  (forall n, (n < 625)%nat -> factor n < factor (S n)) /\
  factor 60%nat = 1.096 /\
  (forall n, (625 <= n)%nat -> factor n = 2).
Proof.
  apply (forward_ramp stillAnimation walking).
  - rewrite control_grounded, control_walking. reflexivity.
  - rewrite control_factor, control_walking. reflexivity.
  - rewrite control_keyboard, control_walking. reflexivity.
Defined.

(** ** The jump and its cooldown *)

Lemma jumps_control (s : System) : jumps (player s) = c_jumps (control s).
Proof. reflexivity. Qed.

Lemma frame_colliders anim (s : System) (delta : R) :
  inv (player s) ->
  RigidBody.colliders (body (player (step anim s (Frame delta)))) =
  if jumps (player s)
  then [capsuleShape jumpCapsuleHeight jumpCapsuleTranslation 0.5]
  else RigidBody.colliders (body (player s)).
Proof.
  intros (_ & _ & _ & Hc). cbn [step player set_player].
  destruct (update_fields anim delta (player s)) as (_ & _ & _ & _ & _ & _ & _ & ->).
  destruct (jumps (player s)); [ | reflexivity ].
  destruct (RigidBody.colliders (body (player s))) as [ | c [ | c' l ] ];
    try discriminate. reflexivity.
Qed.

Lemma clock_step (c : Control) (e : event) :
  valid e -> c_clock c <= c_clock (controlStep c e).
Proof. destruct e; cbn [valid controlStep c_clock]; intros; lra. Qed.

Lemma clock_run (evs : list event) (c : Control) :
  Forall valid evs -> c_clock c <= c_clock (fold_left controlStep evs c).
Proof.
  revert c. induction evs as [ | e evs IH ]; intros c Hv; simpl.
  - lra.
  - inversion Hv; subst.
    apply Rle_trans with (c_clock (controlStep c e)).
    + apply clock_step; assumption.
    + apply IH; assumption.
Qed.

Lemma not_due (T : R) (now : R) (ds : list R) :
  Forall (fun d => T <= d) ds -> now < T ->
  existsb (fun d => Rleb d now) ds = false /\
  filter (fun d => negb (Rleb d now)) ds = ds.
Proof.
  intros Hf Hn. induction Hf as [ | d ds Hd Hf IH ]; simpl.
  - split; reflexivity.
  - rewrite (Rleb_false d now) by lra. simpl.
    destruct IH as (-> & ->). split; reflexivity.
Qed.

Lemma cooling_step (T : R) (c : Control) (e : event) :
  valid e -> cooling T c -> c_clock (controlStep c e) < T -> cooling T (controlStep c e).
Proof.
  intros Hv (Hw & Hf & Ht) Hc. unfold cooling.
  destruct e; cbn [valid controlStep c_wait c_timeouts c_clock] in *.
  - rewrite Hw. repeat split; assumption.
  - repeat split; try assumption.
    destruct (g && negb (c_grounded c)); [ | assumption ].
    apply Forall_app; split; [ assumption | ].
    constructor; [ lra | constructor ].
  - repeat split; assumption.
  - repeat split; assumption.
  - repeat split; try assumption. lra.
  - destruct (not_due T (c_clock c) (c_timeouts c) Hf Hc) as (-> & ->).
    repeat split; assumption.
  - repeat split; assumption.
  - repeat split; assumption.
  - repeat split; assumption.
Qed.

Lemma cooling_run (T : R) (evs : list event) (c : Control) :
  Forall valid evs -> cooling T c -> c_clock (fold_left controlStep evs c) < T ->
  cooling T (fold_left controlStep evs c).
Proof.
  revert c. induction evs as [ | e evs IH ]; intros c Hv Hc Ht; simpl in *.
  - assumption.
  - inversion Hv; subst.
    apply IH; try assumption.
    apply cooling_step; try assumption.
    apply Rle_lt_trans with (c_clock (fold_left controlStep evs (controlStep c e)));
      [ apply clock_run | ]; assumption.
Qed.

Lemma reachable_step anim (s : System) (e : event) :
  reachable anim s -> valid e -> reachable anim (step anim s e).
Proof.
  intros Hr Hv. apply (reachable_run anim s [e] Hr). constructor; [ assumption | constructor ].
Qed.

(** After a jump that no pending timeout can end within 250 ms, no frame
    within these 250 ms has a vertical impulse. *)
Lemma no_second_jump anim (s : System) (delta : R) (evs : list event) (delta' : R) :
  reachable anim s -> 0 <= delta ->
  jumps (player s) = true ->
  Forall (fun d => clock s + 250 <= d) (timeouts s) ->
  Forall valid evs ->
  clock (run anim (step anim s (Frame delta)) evs) < clock s + 250 ->
  Vector3.y (inputVelocity
               (player (step anim (run anim (step anim s (Frame delta)) evs) (Frame delta')))) = 0.
Proof.
  intros Hr Hd Hj Hf Hv Hc.
  rewrite frame_impulse_y.
  2:{ apply reachable_inv with anim. apply reachable_run; [ | assumption ].
      apply reachable_step; assumption. }
  assert (cooling (clock s + 250) (control (run anim (step anim s (Frame delta)) evs)))
    as (Hw & _).
  { rewrite control_clock, control_run in Hc. rewrite control_run.
    apply cooling_run; try assumption.
    rewrite control_step. unfold cooling.
    cbn [controlStep c_wait c_timeouts c_clock control].
    rewrite <- jumps_control, Hj, orb_true_r.
    repeat split; try assumption. lra. }
  unfold c_jumps. rewrite Hw, andb_false_r. reflexivity.
Qed.

Lemma control_beforeJump :
  control beforeJump =
  mkControl true false 1 (Keyboard.set Keyboard.new "Space" true) 200 [250].
Proof.
  unfold beforeJump. rewrite control_run, control_ready. control_eval.
  repeat f_equal; lra.
Qed.

Lemma reachable_beforeJump : reachable stillAnimation beforeJump.
Proof.
  apply reachable_run; [ apply reachable_ready | ].
  repeat constructor; cbn [valid]; lra.
Qed.

Lemma control_firstJump :
  control firstJump =
  mkControl true true 1 (Keyboard.set Keyboard.new "Space" true) 200 [250].
Proof.
  unfold firstJump. rewrite control_step, control_beforeJump. control_eval.
  reflexivity.
Qed.

Lemma reachable_firstJump : reachable stillAnimation firstJump.
Proof.
  apply reachable_step; [ apply reachable_beforeJump | ].
  cbn [valid]; lra.
Qed.

Lemma control_secondAttempt :
  control secondAttempt =
  mkControl true false 1 (Keyboard.set Keyboard.new "Space" true) 260 [510].
Proof.
  unfold secondAttempt. rewrite control_run, control_firstJump. control_eval.
  repeat f_equal; lra.
Qed.

Lemma reachable_secondAttempt : reachable stillAnimation secondAttempt.
Proof.
  apply reachable_run; [ apply reachable_firstJump | ].
  repeat constructor; cbn [valid]; lra.
Qed.

(** C4, as stated, fails in its second half.  The controller lands at
    0 ms, which schedules the clearing of the cooldown for 250 ms.  It
    jumps at 200 ms.  At 260 ms the old timeout has cleared the cooldown
    and the body is on the ground again: the frame jumps a second time,
    60 ms after the first jump. *)
Lemma second_jump_within_250ms :
  Vector3.y (inputVelocity (player firstJump)) = 5 /\
  clock secondAttempt - clock firstJump = 60 /\
  Vector3.y (inputVelocity (player (step stillAnimation secondAttempt (Frame 0.016)))) = 5.
Proof.
  split; [ | split ].
  - unfold firstJump. rewrite frame_impulse_y.
    + rewrite control_beforeJump. reflexivity.
    + apply reachable_inv with stillAnimation. exact reachable_beforeJump.
  - rewrite !control_clock, control_secondAttempt, control_firstJump.
    cbn [c_clock]. lra.
  - rewrite frame_impulse_y.
    + rewrite control_secondAttempt. reflexivity.
    + apply reachable_inv with stillAnimation. exact reachable_secondAttempt.
Qed.

(** C4, amended.  A frame jumps exactly when the controller is grounded,
    the cooldown flag is off and the jump key is held: then the impulse has
    the vertical component 5, the crouch-jump capsule replaces the collider
    and the cooldown flag is set; otherwise the impulse has no vertical
    component and the collider stays.  After a jump, no frame within the
    next 250 ms has a vertical component, provided no timeout that was
    pending at the jump expires within these 250 ms. *)
Theorem jump_guard_and_cooldown anim (s : System) (delta : R) :
  reachable anim s -> 0 <= delta ->
  let s1 := step anim s (Frame delta) in
  (jumps (player s) = true <->
   grounded (player s) = true /\ wait (player s) = false /\
   Keyboard.keyMap (keyboard (player s)) "Space" = true) /\
  Vector3.y (inputVelocity (player s1)) = (if jumps (player s) then 5 else 0) /\
  RigidBody.colliders (body (player s1)) =
    (if jumps (player s)
     then [capsuleShape jumpCapsuleHeight jumpCapsuleTranslation 0.5]
     else RigidBody.colliders (body (player s))) /\
  wait (player s1) = (wait (player s) || jumps (player s)) /\
  (jumps (player s) = true ->
   Forall (fun d => clock s + 250 <= d) (timeouts s) ->
   forall evs delta',
     Forall valid evs ->
     clock (run anim s1 evs) < clock s + 250 ->
     Vector3.y (inputVelocity (player (step anim (run anim s1 evs) (Frame delta')))) = 0).
Proof.
  intros Hr Hd s1. subst s1.
  pose proof (reachable_inv anim s Hr) as Hi.
  split; [ | split; [ | split; [ | split ] ] ].
  - unfold jumps.
    destruct (grounded (player s)), (wait (player s)),
      (Keyboard.keyMap (keyboard (player s)) "Space"); simpl;
      split; intros H; try discriminate; try (destruct H as (? & ? & ?); discriminate);
      repeat split; reflexivity.
  - rewrite frame_impulse_y by assumption. reflexivity.
  - apply frame_colliders. assumption.
  - cbn [step player set_player].
    destruct (update_fields anim delta (player s)) as (_ & _ & -> & _). reflexivity.
  - intros Hj Hf evs delta' Hv Hc.
    apply no_second_jump; assumption.
Qed.

Lemma control_settled :
  control settled =
  mkControl true false 1 (Keyboard.set Keyboard.new "Space" true) 300 [].
Proof.
  unfold settled. rewrite control_run, control_ready. control_eval.
  repeat f_equal; lra.
Qed.

Lemma reachable_settled : reachable stillAnimation settled.
Proof.
  apply reachable_run; [ apply reachable_ready | ].
  repeat constructor; cbn [valid]; lra.
Qed.

Lemma jump_guard_and_cooldown_witness :
  let s1 := step stillAnimation settled (Frame 0.016) in
  Vector3.y (inputVelocity (player s1)) = 5 /\
  RigidBody.colliders (body (player s1)) =
    [capsuleShape jumpCapsuleHeight jumpCapsuleTranslation 0.5] /\
  wait (player s1) = true /\
  forall evs delta',
    Forall valid evs ->
    clock (run stillAnimation s1 evs) < 550 ->
    Vector3.y (inputVelocity
                 (player (step stillAnimation (run stillAnimation s1 evs) (Frame delta')))) = 0.
Proof.
  assert (0 <= 0.016) as Hd by lra.
  destruct (jump_guard_and_cooldown stillAnimation settled 0.016 reachable_settled Hd)
    as (_ & Hy & Hc & Hw & Hn).
  assert (jumps (player settled) = true) as Hj.
  { rewrite jumps_control, control_settled. reflexivity. }
  assert (clock settled = 300) as Ht.
  { rewrite control_clock, control_settled. reflexivity. }
  assert (timeouts settled = []) as Hp.
  { change (c_timeouts (control settled) = []). rewrite control_settled. reflexivity. }
  rewrite Hj in Hy, Hc. rewrite Hj, orb_true_r in Hw.
  split; [ exact Hy | split; [ exact Hc | split; [ exact Hw | ] ] ].
  intros evs delta' Hv Hlt.
  apply Hn; try assumption.
  - rewrite Hp. constructor.
  - rewrite Ht. lra.
Defined.

(** ** Falling out of bounds *)

(** The stages before the avatar steps leave the avatar, the camera rig and
    the follow target alone. *)
Lemma localVelocity_scene (delta : R) (p : Player) :
  let q := localVelocity delta p in
  animationController q = animationController p /\
  followTarget q = followTarget p /\ followCam q = followCam p.
Proof.
  unfold localVelocity; simpl.
  destruct (grounded p); [ | repeat split; reflexivity ].
  destruct (directionalKeys _ _ _) as [v limit].
  unfold jump, updateCapsuleHeight, ramp.
  split_ifs; repeat split; reflexivity.
Qed.

Lemma applyYawAndImpulse_scene (p : Player) :
  let q := applyYawAndImpulse p in
  animationController q = animationController p /\
  followTarget q = followTarget p /\ followCam q = followCam p.
Proof. repeat split; reflexivity. Qed.

Lemma reset_fields (p : Player) :
  let q := reset p in
  UI.resets (ui q) = S (UI.resets (ui p)) /\
  RigidBody.linvel (body q) = Vector3.mk 0 0 0 /\
  RigidBody.translation (body q) = Vector3.mk 0 1 0 /\
  animationController q = animationController p /\
  followTarget q = followTarget p /\ followCam q = followCam p.
Proof. repeat split; reflexivity. Qed.

Lemma follow_fields (delta : R) (p : Player) :
  let q := follow delta p in
  Object3D.position (followTarget q) = RigidBody.translation (body p) /\
  vector q = RigidBody.translation (body p) /\
  FollowCam.pivot (followCam q) =
    Vector3.lerp (FollowCam.pivot (followCam p)) (RigidBody.translation (body p)) (delta * 10) /\
  avatar q =
    match avatar p with
    | Some m =>
        Some (Object3D.set_position
                (Vector3.lerp (Object3D.position m) (RigidBody.translation (body p))
                              (delta * 20)) m)
    | None => None
    end.
Proof.
  unfold follow, set_avatar, avatar; simpl.
  destruct (animationController p) as [ [ [ m | ] ] | ] eqn:E; simpl; rewrite ?E; simpl;
    repeat split; reflexivity.
Qed.

(** C5: when the body is below -3 as [update(delta)] starts, [reset()]
    runs once in that frame (the UI is reset once), the body then has the
    linear velocity (0,0,0) and the translation (0,1,0), and the steps that
    follow work on that body: the follow target and the scratch vector are
    (0,1,0), the camera pivot and the avatar interpolate towards (0,1,0),
    and the orientation and animation steps run on this state. *)
Theorem out_of_bounds_reset anim (delta : R) (p : Player) :
  Vector3.y (RigidBody.translation (body p)) < -3 ->
  let q := beforeOrientation delta p in
  UI.resets (ui q) = S (UI.resets (ui p)) /\
  RigidBody.linvel (body q) = Vector3.mk 0 0 0 /\
  RigidBody.translation (body q) = Vector3.mk 0 1 0 /\
  Object3D.position (followTarget q) = Vector3.mk 0 1 0 /\
  vector q = Vector3.mk 0 1 0 /\
  FollowCam.pivot (followCam q) =
    Vector3.lerp (FollowCam.pivot (followCam p)) (Vector3.mk 0 1 0) (delta * 10) /\
  avatar q =
    match avatar p with
    | Some m =>
        Some (Object3D.set_position
                (Vector3.lerp (Object3D.position m) (Vector3.mk 0 1 0) (delta * 20)) m)
    | None => None
    end /\
  update anim delta p =
    match avatar q with
    | Some m => (Returned, animate anim delta (orient delta m q))
    | None => (TypeError, q)
    end /\
  body (snd (update anim delta p)) = body q /\
  ui (snd (update anim delta p)) = ui q.
Proof.
  intros Hy q.
  set (q1 := applyYawAndImpulse (localVelocity delta p)).
  assert (outOfBounds q1 = reset q1) as Ho.
  { unfold outOfBounds.
    destruct (applyYawAndImpulse_fields (localVelocity delta p))
      as (_ & _ & _ & _ & _ & _ & _ & Ht & _).
    destruct (localVelocity_fields delta p) as (_ & _ & _ & _ & _ & _ & _ & _ & Ht').
    fold q1 in Ht. rewrite Ht, Ht', Rltb_true by assumption. reflexivity. }
  assert (q = follow delta (reset q1)) as Hq.
  { unfold q, beforeOrientation. fold q1. rewrite Ho. reflexivity. }
  destruct (reset_fields q1) as (Ru & Rv & Rt & Ra & _ & Rc).
  destruct (applyYawAndImpulse_fields (localVelocity delta p))
    as (_ & _ & _ & _ & _ & _ & _ & _ & Au & _).
  destruct (applyYawAndImpulse_scene (localVelocity delta p)) as (Aa & _ & Ac).
  destruct (localVelocity_fields delta p) as (_ & _ & _ & _ & Lu & _).
  destruct (localVelocity_scene delta p) as (La & _ & Lc).
  fold q1 in Au, Aa, Ac.
  destruct (follow_fields delta (reset q1)) as (Fp & Fv & Fc & Fa).
  destruct (core_fields _ _ (follow_core delta (reset q1)))
    as (_ & _ & _ & _ & _ & Fb & _ & Fu & _).
  rewrite <- Hq in Fp, Fv, Fc, Fa, Fb, Fu.
  rewrite Rt in Fp, Fv, Fc, Fa.
  assert (avatar (reset q1) = avatar p) as Hav.
  { unfold avatar. rewrite Ra, Aa, La. reflexivity. }
  rewrite Hav in Fa. rewrite Rc, Ac, Lc in Fc.
  repeat match goal with |- _ /\ _ => split end.
  - rewrite Fu, Ru, Au, Lu. reflexivity.
  - rewrite Fb. exact Rv.
  - rewrite Fb. exact Rt.
  - exact Fp.
  - exact Fv.
  - exact Fc.
  - exact Fa.
  - unfold update. fold q. destruct (avatar q); reflexivity.
  - destruct (core_fields _ _ (update_core anim delta p)) as (_ & _ & _ & _ & _ & -> & _).
    fold q1. rewrite Ho, Fb. reflexivity.
  - destruct (core_fields _ _ (update_core anim delta p))
      as (_ & _ & _ & _ & _ & _ & _ & -> & _).
    fold q1. rewrite Ho, Fu. reflexivity.
Qed.

Lemma out_of_bounds_reset_witness :
  Vector3.y (RigidBody.translation (body (player fallen))) < -3 /\
  let q := beforeOrientation 0.016 (player fallen) in
  UI.resets (ui q) = S (UI.resets (ui (player fallen))) /\
  RigidBody.linvel (body q) = Vector3.mk 0 0 0 /\
  RigidBody.translation (body q) = Vector3.mk 0 1 0 /\
  Object3D.position (followTarget q) = Vector3.mk 0 1 0.
Proof.
  assert (Vector3.y (RigidBody.translation (body (player fallen))) < -3) as Hy.
  { unfold fallen.
    cbn [step player set_player body set_body RigidBody.translation RigidBody.setLinvel
         RigidBody.setTranslation RigidBody.recomputeMass RigidBody.set_countedMass Vector3.y].
    lra. }
  split; [ exact Hy | ].
  destruct (out_of_bounds_reset stillAnimation 0.016 (player fallen) Hy)
    as (H1 & H2 & H3 & H4 & _).
  repeat split; assumption.
Defined.

(** ** The orientation of the avatar *)

Lemma normalize_yaw (q : Quaternion.t) : yawOnly q -> yawOnly (Quaternion.normalize q).
Proof.
  intros (Hx & Hz). unfold Quaternion.normalize, yawOnly.
  destruct (Reqb (Quaternion.length q) 0); simpl.
  - split; reflexivity.
  - rewrite Hx, Hz. split; ring.
Qed.

Lemma slerp_yaw (a b : Quaternion.t) (s : R) :
  yawOnly a -> yawOnly b -> yawOnly (Quaternion.slerp a b s).
Proof.
  intros Ha Hb. unfold Quaternion.slerp.
  destruct (Reqb s 0); [ exact Ha | ].
  destruct (Reqb s 1); [ exact Hb | ].
  destruct Ha as (Ax & Az), Hb as (Bx & Bz).
  destruct (Rltb (Quaternion.dot a b) 0).
  - destruct (Rgeb _ 1); [ split; assumption | ].
    destruct (Rleb _ Quaternion.EPSILON).
    + apply normalize_yaw. unfold yawOnly; simpl. rewrite Ax, Az, Bx, Bz. split; ring.
    + unfold yawOnly; simpl. rewrite Ax, Az, Bx, Bz. split; ring.
  - destruct (Rgeb _ 1); [ split; assumption | ].
    destruct (Rleb _ Quaternion.EPSILON).
    + apply normalize_yaw. unfold yawOnly; simpl. rewrite Ax, Az, Bx, Bz. split; ring.
    + unfold yawOnly; simpl. rewrite Ax, Az, Bx, Bz. split; ring.
Qed.

Lemma rotateTowards_yaw (a b : Quaternion.t) (step : R) :
  yawOnly a -> yawOnly b -> yawOnly (Quaternion.rotateTowards a b step).
Proof.
  intros Ha Hb. unfold Quaternion.rotateTowards.
  destruct (Reqb _ 0); [ exact Ha | ].
  apply slerp_yaw; assumption.
Qed.

Lemma avatar_set_avatar (m0 m : Object3D.t) (p : Player) :
  avatar p = Some m0 -> avatar (set_avatar m p) = Some m.
Proof.
  unfold avatar, set_avatar.
  destruct (animationController p) as [ [ [ m1 | ] ] | ] eqn:E; simpl;
    intros H; try discriminate.
  reflexivity.
Qed.

(** The orientation step keeps the avatar, and keeps it turned about the
    vertical axis only, whether or not it rotates towards the target. *)
Lemma orient_avatar (delta : R) (m : Object3D.t) (p : Player) :
  avatar p = Some m -> yawOnly (Object3D.quaternion m) ->
  exists m', avatar (orient delta m p) = Some m' /\ yawOnly (Object3D.quaternion m').
Proof.
  intros Ha Hy. unfold orient.
  match goal with
  | |- context [if ?b then _ else _] => destruct b
  end.
  - eexists. split.
    + apply avatar_set_avatar with m. exact Ha.
    + cbn [Object3D.quaternion Object3D.set_quaternion].
      apply rotateTowards_yaw; [ exact Hy | ].
      apply normalize_yaw. split; reflexivity.
  - exists m. split; [ exact Ha | exact Hy ].
Qed.

Lemma outOfBounds_scene (p : Player) :
  animationController (outOfBounds p) = animationController p.
Proof. unfold outOfBounds. destruct (Rltb _ _); reflexivity. Qed.

Lemma beforeOrientation_avatar (delta : R) (p : Player) :
  avatar (beforeOrientation delta p) =
  match avatar p with
  | Some m =>
      Some (Object3D.set_position
              (Vector3.lerp (Object3D.position m)
                 (RigidBody.translation
                    (body (outOfBounds (applyYawAndImpulse (localVelocity delta p)))))
                 (delta * 20)) m)
  | None => None
  end.
Proof.
  unfold beforeOrientation.
  destruct (follow_fields delta (outOfBounds (applyYawAndImpulse (localVelocity delta p))))
    as (_ & _ & _ & ->).
  assert (avatar (outOfBounds (applyYawAndImpulse (localVelocity delta p))) = avatar p) as ->.
  { unfold avatar. rewrite outOfBounds_scene.
    destruct (applyYawAndImpulse_scene (localVelocity delta p)) as (-> & _).
    destruct (localVelocity_scene delta p) as (-> & _). reflexivity. }
  reflexivity.
Qed.

(** One frame: with an avatar turned about the vertical axis only, the
    orientation step is reached and leaves it so. *)
Lemma afterOrientation_yaw (delta : R) (p : Player) (m : Object3D.t) :
  avatar p = Some m -> yawOnly (Object3D.quaternion m) ->
  exists p' m',
    afterOrientation delta p = Some p' /\ avatar p' = Some m' /\
    yawOnly (Object3D.quaternion m').
Proof.
  intros Ha Hy. unfold afterOrientation.
  pose proof (beforeOrientation_avatar delta p) as Hb. rewrite Ha in Hb.
  rewrite Hb.
  destruct (orient_avatar delta _ (beforeOrientation delta p) Hb Hy) as (m' & Hm & Hy').
  eexists. exists m'. split; [ reflexivity | split; assumption ].
Qed.

Lemma afterOrientation_none (delta : R) (p : Player) :
  avatar p = None -> afterOrientation delta p = None.
Proof.
  intros Ha. unfold afterOrientation.
  rewrite beforeOrientation_avatar, Ha. reflexivity.
Qed.

Lemma avatarYawOnly_model (p : Player) :
  avatarYawOnly p <->
  match animationController p with
  | Some ac => modelYawOnly ac
  | None => True
  end.
Proof.
  unfold avatarYawOnly, avatar, modelYawOnly.
  destruct (animationController p); tauto.
Qed.

Lemma update_avatarYawOnly anim (delta : R) (p : Player) :
  (forall d ac, modelYawOnly ac -> modelYawOnly (anim d ac)) ->
  avatarYawOnly p -> avatarYawOnly (snd (update anim delta p)).
Proof.
  intros Hanim Hp. unfold update.
  pose proof (beforeOrientation_avatar delta p) as Hb.
  destruct (avatar (beforeOrientation delta p)) as [ m1 | ] eqn:Hq; cbn [snd].
  - assert (yawOnly (Object3D.quaternion m1)) as Hy.
    { unfold avatarYawOnly in Hp. destruct (avatar p) as [ m | ]; [ | discriminate ].
      injection Hb as ->. exact Hp. }
    destruct (orient_avatar delta m1 (beforeOrientation delta p) Hq Hy) as (m' & Hm & Hy').
    apply avatarYawOnly_model. unfold animate.
    unfold avatar in Hm.
    destruct (animationController (orient delta m1 (beforeOrientation delta p)))
      as [ ac | ] eqn:Hac; [ | discriminate ].
    cbn [animationController set_animationController].
    apply Hanim. unfold modelYawOnly. rewrite Hm. exact Hy'.
  - unfold avatarYawOnly. rewrite Hq. exact I.
Qed.

Lemma setGrounded_scene (g : bool) (s : System) :
  animationController (player (setGrounded g s)) = animationController (player s).
Proof.
  unfold setGrounded.
  destruct (negb (Bool.eqb g (grounded (player s)))); [ | reflexivity ].
  destruct g; reflexivity.
Qed.

Lemma runTimeouts_scene (s : System) :
  animationController (player (runTimeouts s)) = animationController (player s).
Proof.
  unfold runTimeouts; cbn [player].
  generalize (filter (fun d => Rleb d (clock s)) (timeouts s)) as due.
  generalize (player s) as p.
  intros p due; revert p.
  induction due as [ | d due IH ]; intros p; simpl.
  - reflexivity.
  - rewrite IH. reflexivity.
Qed.

Lemma step_avatarYawOnly anim (s : System) (e : event) :
  (forall d ac, modelYawOnly ac -> modelYawOnly (anim d ac)) ->
  loadsYawOnly e ->
  avatarYawOnly (player s) -> avatarYawOnly (player (step anim s e)).
Proof.
  intros Hanim He Hs.
  destruct e; cbn [step loadsYawOnly] in *.
  - apply update_avatarYawOnly; assumption.
  - apply avatarYawOnly_model. rewrite setGrounded_scene.
    apply avatarYawOnly_model. exact Hs.
  - exact Hs.
  - exact Hs.
  - exact Hs.
  - apply avatarYawOnly_model. rewrite runTimeouts_scene.
    apply avatarYawOnly_model. exact Hs.
  - exact Hs.
  - exact I.
  - destruct (animationController (player s)) eqn:Hac; [ | exact Hs ].
    exact He.
Qed.

Lemma run_avatarYawOnly anim (evs : list event) (s : System) :
  (forall d ac, modelYawOnly ac -> modelYawOnly (anim d ac)) ->
  Forall loadsYawOnly evs ->
  avatarYawOnly (player s) -> avatarYawOnly (player (run anim s evs)).
Proof.
  intros Hanim. revert s.
  induction evs as [ | e evs IH ]; intros s Hv Hs.
  - exact Hs.
  - inversion Hv; subst.
    change (run anim s (e :: evs)) with (run anim (step anim s e) evs).
    apply IH; [ assumption | ].
    apply step_avatarYawOnly; assumption.
Qed.

(** C6: start from an avatar turned about the vertical axis only (the
    identity orientation is), let the animation collaborator and any
    later loading of the avatar keep it so, and let any events happen.
    Then in every frame the orientation step is reached exactly when there
    is an avatar, and right after it the avatar's quaternion has the
    components X = 0 and Z = 0, whether the rotate-toward branch ran or
    not. *)
Theorem orientation_yaw_only anim (s : System) (evs : list event) (delta : R) :
  (forall d ac, modelYawOnly ac -> modelYawOnly (anim d ac)) ->
  avatarYawOnly (player s) ->
  Forall loadsYawOnly evs ->
  let p := player (run anim s evs) in
  match avatar p with
  | Some _ =>
      exists p' m',
        afterOrientation delta p = Some p' /\ avatar p' = Some m' /\
        Quaternion.x (Object3D.quaternion m') = 0 /\
        Quaternion.z (Object3D.quaternion m') = 0
  | None => afterOrientation delta p = None
  end.
Proof.
  intros Hanim Hs Hv p.
  pose proof (run_avatarYawOnly anim evs s Hanim Hv Hs) as Hp. fold p in Hp.
  destruct (avatar p) as [ m | ] eqn:Ha.
  - unfold avatarYawOnly in Hp. rewrite Ha in Hp.
    destruct (afterOrientation_yaw delta p m Ha Hp) as (p' & m' & H1 & H2 & H3 & H4).
    exists p', m'. repeat split; assumption.
  - apply afterOrientation_none. exact Ha.
Qed.

Lemma orientation_yaw_only_witness :
  exists p' m',
    afterOrientation 0.016 (player walking) = Some p' /\ avatar p' = Some m' /\
    Quaternion.x (Object3D.quaternion m') = 0 /\
    Quaternion.z (Object3D.quaternion m') = 0.
Proof.
  assert (forall d ac, modelYawOnly ac -> modelYawOnly (stillAnimation d ac)) as Hanim.
  { intros d ac H. exact H. }
  assert (avatarYawOnly (player ready)) as Hs.
  { unfold avatarYawOnly, yawOnly. simpl. split; reflexivity. }
  assert (Forall loadsYawOnly [Contact true; Key "KeyW" true]) as Hv.
  { repeat constructor. }
  pose proof (orientation_yaw_only stillAnimation ready [Contact true; Key "KeyW" true]
                0.016 Hanim Hs Hv) as H.
  cbv zeta in H. fold walking in H.
  assert (avatar (player walking) = Some Object3D.new) as Ha by reflexivity.
  rewrite Ha in H. exact H.
Defined.

(** ** The impulse with no key held *)

Lemma directionalKeys_none (keyMap : string -> bool) (v : Vector3.t) (limit : R) :
  directional keyMap = false -> directionalKeys keyMap v limit = (v, limit).
Proof.
  unfold directional, directionalKeys.
  destruct (keyMap "KeyW"%string), (keyMap "KeyS"%string),
    (keyMap "KeyA"%string), (keyMap "KeyD"%string); simpl; intros H;
    try discriminate; reflexivity.
Qed.

Lemma applyImpulse_zero (b : RigidBody.t) :
  RigidBody.applyImpulse b (Vector3.mk 0 0 0) = b.
Proof.
  unfold RigidBody.applyImpulse, RigidBody.setLinvel.
  destruct b as [tr [vx vy vz] d cs cm]; simpl.
  f_equal. f_equal; ring.
Qed.

(** With nothing held, the movement stage leaves a zero input velocity and
    does not touch the body. *)
Lemma localVelocity_idle (delta : R) (p : Player) :
  grounded p = true ->
  directional (Keyboard.keyMap (keyboard p)) = false ->
  Keyboard.keyMap (keyboard p) "Space" = false ->
  inputVelocity (localVelocity delta p) = Vector3.mk 0 0 0 /\
  body (localVelocity delta p) = body p.
Proof.
  intros Hg Hk Hs. unfold localVelocity.
  cbn [grounded set_inputVelocity keyboard inputVelocity]. rewrite Hg.
  rewrite directionalKeys_none by assumption.
  set (r := ramp delta _).
  destruct (ramp_fields delta
              (set_inputVelocity (Vector3.mk 0 0 0)
                 (set_inputVelocity (Vector3.mk 0 0 0) p)))
    as (_ & _ & Rk & _ & Rb & Ri & _).
  fold r in Rk, Rb, Ri. cbn [keyboard body inputVelocity set_inputVelocity] in Rk, Rb, Ri.
  unfold jump. cbn [wait keyboard set_inputVelocity].
  rewrite Rk, Hs, andb_false_r.
  cbn [inputVelocity body set_inputVelocity].
  rewrite Ri, Rb, setLength_zero. split; reflexivity.
Qed.

(** C7: on the ground with no directional key and no jump key held, the
    impulse that [update(delta)] computes, the camera yaw included, is the
    zero vector (0,0,0), for every delta > 0 (and any camera yaw); applying
    it leaves the body as it was. *)
Theorem idle_impulse_zero anim (delta : R) (p : Player) :
  0 < delta ->
  grounded p = true ->
  directional (Keyboard.keyMap (keyboard p)) = false ->
  Keyboard.keyMap (keyboard p) "Space" = false ->
  impulse delta p = Vector3.mk 0 0 0 /\
  inputVelocity (snd (update anim delta p)) = Vector3.mk 0 0 0 /\
  body (applyYawAndImpulse (localVelocity delta p)) = body p.
Proof.
  intros _ Hg Hk Hs.
  destruct (localVelocity_idle delta p Hg Hk Hs) as (Hi & Hb).
  assert (impulse delta p = Vector3.mk 0 0 0) as Himp.
  { unfold impulse.
    destruct (applyYawAndImpulse_fields (localVelocity delta p))
      as (_ & _ & _ & _ & _ & _ & _ & _ & _ & -> & _).
    rewrite Hi. apply applyQuaternion_zero. }
  split; [ exact Himp | split ].
  - destruct (update_fields anim delta p) as (_ & _ & _ & _ & _ & _ & -> & _).
    exact Himp.
  - unfold impulse in Himp. unfold applyYawAndImpulse in *.
    cbn [body set_body set_inputVelocity set_quaternion set_euler inputVelocity] in *.
    rewrite Himp, Hb. apply applyImpulse_zero.
Qed.

Lemma idle_impulse_zero_witness :
  impulse 0.016 (player (run stillAnimation ready [Contact true])) = Vector3.mk 0 0 0 /\
  inputVelocity
    (snd (update stillAnimation 0.016 (player (run stillAnimation ready [Contact true]))))
  = Vector3.mk 0 0 0.
Proof.
  assert (0 < 0.016) as Hd by lra.
  destruct (idle_impulse_zero stillAnimation 0.016
              (player (run stillAnimation ready [Contact true])) Hd)
    as (H1 & H2 & _); try reflexivity.
  split; assumption.
Defined.

(** ** Opposite keys *)

Lemma localVelocity_direction (delta : R) (p : Player) :
  grounded p = true ->
  let d := directionalKeys (Keyboard.keyMap (keyboard p)) (Vector3.mk 0 0 0) 1 in
  let l := delta * snd d * accelerationFactor (localVelocity delta p) in
  Vector3.x (inputVelocity (localVelocity delta p)) = Vector3.x (Vector3.setLength (fst d) l) /\
  Vector3.z (inputVelocity (localVelocity delta p)) = Vector3.z (Vector3.setLength (fst d) l).
Proof.
  intros Hg. unfold localVelocity.
  cbn [grounded set_inputVelocity keyboard inputVelocity]. rewrite Hg.
  destruct (directionalKeys _ _ _) as [v limit]. cbn [fst snd].
  set (r := ramp delta _).
  destruct (ramp_fields delta (set_inputVelocity v (set_inputVelocity (Vector3.mk 0 0 0) p)))
    as (_ & _ & _ & _ & _ & Ri & _).
  fold r in Ri. cbn [inputVelocity set_inputVelocity] in Ri.
  match goal with
  | |- context [accelerationFactor (jump ?q)] =>
      destruct (jump_fields q) as (_ & Ja & _); rewrite Ja
  end.
  cbn [accelerationFactor set_inputVelocity]. rewrite Ri.
  unfold jump, updateCapsuleHeight.
  destruct (negb _ && _); split; reflexivity.
Qed.

(** The direction that the four tests of lines 92-107 leave, and the
    speed limit, written out key by key. *)
Lemma directionalKeys_explicit (keyMap : string -> bool) :
  directionalKeys keyMap (Vector3.mk 0 0 0) 1 =
  (Vector3.mk (if keyMap "KeyD"%string then 1 else if keyMap "KeyA"%string then -1 else 0)
              0
              (if keyMap "KeyS"%string then 1 else if keyMap "KeyW"%string then -1 else 0),
   if directional keyMap then 9.5 else 1).
Proof.
  unfold directionalKeys, directional.
  destruct (keyMap "KeyW"%string), (keyMap "KeyS"%string),
    (keyMap "KeyA"%string), (keyMap "KeyD"%string); reflexivity.
Qed.

Lemma setLength_back (l : R) :
  Vector3.setLength (Vector3.mk 0 0 1) l = Vector3.mk 0 0 l.
Proof.
  unfold Vector3.setLength, Vector3.normalize, Vector3.divideScalar,
    Vector3.multiplyScalar, Vector3.length, Vector3.lengthSq; simpl.
  replace (0 * 0 + 0 * 0 + 1 * 1) with 1 by ring.
  rewrite sqrt_1. unfold Reqb. destruct (Req_dec_T 1 0); [ lra | ].
  f_equal; field.
Qed.

Lemma setLength_right (l : R) :
  Vector3.setLength (Vector3.mk 1 0 0) l = Vector3.mk l 0 0.
Proof.
  unfold Vector3.setLength, Vector3.normalize, Vector3.divideScalar,
    Vector3.multiplyScalar, Vector3.length, Vector3.lengthSq; simpl.
  replace (1 * 1 + 0 * 0 + 0 * 0) with 1 by ring.
  rewrite sqrt_1. unfold Reqb. destruct (Req_dec_T 1 0); [ lra | ].
  f_equal; field.
Qed.

(** C8: on the ground, the direction vector that [update] builds has, on
    its forward/back axis, the back key's value 1 whenever back is held
    (also with forward held: back wins), else -1 for forward, else 0; and
    on its left/right axis the right key's value 1 whenever right is held
    (also with left held: right wins), else -1 for left, else 0.  The
    horizontal components of the frame's local input velocity are those of
    this vector set to the length [delta * limit * factor], with the limit
    and the factor that the held keys and the old factor give.  So with
    forward and back held alone the velocity points back with that length,
    and with left and right held alone it points right. *)
Theorem later_key_wins (delta : R) (p : Player) :
  grounded p = true ->
  let keyMap := Keyboard.keyMap (keyboard p) in
  let dx := if keyMap "KeyD"%string then 1 else if keyMap "KeyA"%string then -1 else 0 in
  let dz := if keyMap "KeyS"%string then 1 else if keyMap "KeyW"%string then -1 else 0 in
  let limit := if directional keyMap then 9.5 else 1 in
  let factor :=
    if directional keyMap then
      if Rgtb (accelerationFactor p + delta * 0.1) 2 then 2
      else accelerationFactor p + delta * 0.1
    else 1 in
  let l := delta * limit * factor in
  let v := inputVelocity (localVelocity delta p) in
  (keyMap "KeyW"%string = true -> keyMap "KeyS"%string = true -> dz = 1) /\
  (keyMap "KeyA"%string = true -> keyMap "KeyD"%string = true -> dx = 1) /\
  fst (directionalKeys keyMap (Vector3.mk 0 0 0) 1) = Vector3.mk dx 0 dz /\
  Vector3.x v = Vector3.x (Vector3.setLength (Vector3.mk dx 0 dz) l) /\
  Vector3.z v = Vector3.z (Vector3.setLength (Vector3.mk dx 0 dz) l) /\
  (keyMap "KeyW"%string = true -> keyMap "KeyS"%string = true ->
   keyMap "KeyA"%string = false -> keyMap "KeyD"%string = false ->
   Vector3.x v = 0 /\ Vector3.z v = l /\ limit = 9.5) /\
  (keyMap "KeyA"%string = true -> keyMap "KeyD"%string = true ->
   keyMap "KeyW"%string = false -> keyMap "KeyS"%string = false ->
   Vector3.x v = l /\ Vector3.z v = 0 /\ limit = 9.5).
Proof.
  intros Hg keyMap dx dz limit factor l v.
  destruct (localVelocity_direction delta p Hg) as (Hx & Hz).
  cbv zeta in Hx, Hz.
  rewrite localVelocity_accelerationFactor, Hg in Hx, Hz.
  rewrite (directionalKeys_explicit (Keyboard.keyMap (keyboard p))) in Hx, Hz.
  cbn [fst snd] in Hx, Hz.
  fold keyMap in Hx, Hz. fold dx dz limit factor in Hx, Hz. fold l in Hx, Hz.
  fold v in Hx, Hz.
  repeat match goal with |- _ /\ _ => split end.
  - intros _ HS. unfold dz. rewrite HS. reflexivity.
  - intros _ HD. unfold dx. rewrite HD. reflexivity.
  - unfold keyMap. rewrite directionalKeys_explicit. reflexivity.
  - exact Hx.
  - exact Hz.
  - intros HW HS HA HD. rewrite Hx, Hz.
    unfold dx, dz, limit, directional. rewrite HW, HS, HA, HD.
    rewrite setLength_back. repeat split; reflexivity.
  - intros HA HD HW HS. rewrite Hx, Hz.
    unfold dx, dz, limit, directional. rewrite HW, HS, HA, HD.
    rewrite setLength_right. repeat split; reflexivity.
Qed.

Lemma later_key_wins_witness :
  (Vector3.x (inputVelocity (localVelocity 0.016 (player backAndForth))) = 0 /\
   Vector3.z (inputVelocity (localVelocity 0.016 (player backAndForth))) =
     0.016 * 9.5 * (1 + 0.016 * 0.1)) /\
  (Vector3.x (inputVelocity (localVelocity 0.016 (player leftAndRight))) =
     0.016 * 9.5 * (1 + 0.016 * 0.1) /\
   Vector3.z (inputVelocity (localVelocity 0.016 (player leftAndRight))) = 0).
Proof.
  assert (grounded (player backAndForth) = true) as Hg1 by reflexivity.
  assert (grounded (player leftAndRight) = true) as Hg2 by reflexivity.
  destruct (later_key_wins 0.016 (player backAndForth) Hg1)
    as (_ & _ & _ & _ & _ & H1 & _).
  destruct (later_key_wins 0.016 (player leftAndRight) Hg2)
    as (_ & _ & _ & _ & _ & _ & H2).
  destruct H1 as (H1x & H1z & _); try reflexivity.
  destruct H2 as (H2x & H2z & _); try reflexivity.
  assert (accelerationFactor (player backAndForth) = 1) as Ha1 by reflexivity.
  assert (accelerationFactor (player leftAndRight) = 1) as Ha2 by reflexivity.
  assert (directional (Keyboard.keyMap (keyboard (player backAndForth))) = true) as Hd1
    by reflexivity.
  assert (directional (Keyboard.keyMap (keyboard (player leftAndRight))) = true) as Hd2
    by reflexivity.
  rewrite Hd1, Ha1, (Rgtb_false (1 + 0.016 * 0.1) 2) in H1z by lra.
  rewrite Hd2, Ha2, (Rgtb_false (1 + 0.016 * 0.1) 2) in H2x by lra.
  split; split; assumption.
Defined.

(** ** Landing *)

(** C9: whenever [setGrounded(true)] is called on an airborne controller,
    the one collider of the body afterwards is the standing capsule: half
    height 0.5 and translation (0, 0.645, 0) (with radius 0.15, mass 0.5,
    friction 0 and collision events), whatever collider was attached
    before. *)
Theorem landing_restores_standing anim (s : System) :
  reachable anim s ->
  grounded (player s) = false ->
  grounded (player (setGrounded true s)) = true /\
  RigidBody.colliders (body (player (setGrounded true s))) =
    [Collider.mk 0.5 0.15 (Vector3.mk 0 0.645 0) 0.5 0 true].
Proof.
  intros Hr Hg.
  destruct (reachable_inv anim s Hr) as (_ & _ & _ & Hc).
  destruct (setGrounded_fields true s) as (_ & _ & _ & _ & Eg & _ & _ & Ec).
  split; [ exact Eg | ].
  rewrite Ec, Hg. cbn [andb negb].
  destruct (RigidBody.colliders (body (player s))) as [ | c [ | c' l ] ];
    try discriminate. reflexivity.
Qed.

Lemma reachable_jumpedOff : reachable stillAnimation jumpedOff.
Proof.
  apply reachable_run; [ apply reachable_firstJump | ].
  repeat constructor.
Qed.

Lemma landing_restores_standing_witness :
  RigidBody.colliders (body (player jumpedOff)) =
    [capsuleShape jumpCapsuleHeight jumpCapsuleTranslation 0.5] /\
  grounded (player (setGrounded true jumpedOff)) = true /\
  RigidBody.colliders (body (player (setGrounded true jumpedOff))) =
    [Collider.mk 0.5 0.15 (Vector3.mk 0 0.645 0) 0.5 0 true].
Proof.
  assert (grounded (player jumpedOff) = false) as Hg.
  { rewrite control_grounded. unfold jumpedOff.
    rewrite control_run, control_firstJump. reflexivity. }
  split.
  - unfold jumpedOff. change (run stillAnimation firstJump [Contact false])
      with (setGrounded false firstJump).
    destruct (setGrounded_fields false firstJump) as (_ & _ & _ & _ & _ & _ & _ & ->).
    cbn [andb]. unfold firstJump. rewrite frame_colliders.
    + rewrite jumps_control, control_beforeJump. reflexivity.
    + apply reachable_inv with stillAnimation. exact reachable_beforeJump.
  - apply (landing_restores_standing stillAnimation jumpedOff reachable_jumpedOff Hg).
Defined.

(** ** What sets the cooldown flag *)

Lemma airborneIdle_step (c : Control) (e : event) :
  noContact e -> airborneIdle c -> airborneIdle (controlStep c e).
Proof.
  intros He (Hg & Hw). unfold airborneIdle.
  destruct e; cbn [noContact controlStep c_grounded c_wait] in *;
    try (split; assumption).
  - unfold c_jumps. rewrite Hg, Hw. split; reflexivity.
  - contradiction.
  - rewrite Hw. split; [ assumption | ]. destruct (existsb _ _); reflexivity.
Qed.

Lemma airborneIdle_run (evs : list event) (c : Control) :
  Forall noContact evs -> airborneIdle c -> airborneIdle (fold_left controlStep evs c).
Proof.
  revert c. induction evs as [ | e evs IH ]; intros c Hv Hc; simpl.
  - exact Hc.
  - inversion Hv; subst. apply IH; [ assumption | ].
    apply airborneIdle_step; assumption.
Qed.

(** Only a frame that jumps turns the flag on. *)
Lemma wait_set_by_jump anim (s : System) (e : event) :
  wait (player s) = false -> wait (player (step anim s e)) = true ->
  exists delta, e = Frame delta /\ jumps (player s) = true.
Proof.
  rewrite !control_wait, control_step, jumps_control.
  intros Hw Hs.
  destruct e; cbn [controlStep c_wait] in Hs; try congruence.
  - exists delta. split; [ reflexivity | ].
    rewrite Hw in Hs. exact Hs.
  - rewrite Hw in Hs. destruct (existsb _ _); discriminate.
Qed.

Lemma control_onLedge :
  control onLedge =
  mkControl true true 1
    (Keyboard.set (Keyboard.set Keyboard.new "Space" true) "Space" false) 500 [650].
Proof.
  unfold onLedge. rewrite control_run, control_settled. control_eval.
  repeat f_equal; lra.
Qed.

Lemma reachable_onLedge : reachable stillAnimation onLedge.
Proof.
  apply reachable_run; [ apply reachable_settled | ].
  repeat constructor; cbn [valid]; lra.
Qed.

Lemma control_hopped :
  control hopped =
  mkControl true true 1
    (Keyboard.set (Keyboard.set Keyboard.new "Space" true) "Space" false) 500 [650].
Proof.
  unfold hopped. rewrite control_step, control_onLedge. control_eval. reflexivity.
Qed.

Lemma reachable_hopped : reachable stillAnimation hopped.
Proof.
  apply reachable_step; [ apply reachable_onLedge | ].
  cbn [valid]; lra.
Qed.

Lemma control_landedAgain :
  control landedAgain =
  mkControl true true 1
    (Keyboard.set
       (Keyboard.set (Keyboard.set Keyboard.new "Space" true) "Space" false) "Space" true)
    600 [650; 850].
Proof.
  unfold landedAgain. rewrite control_run, control_hopped. control_eval.
  repeat f_equal; lra.
Qed.

Lemma reachable_landedAgain : reachable stillAnimation landedAgain.
Proof.
  apply reachable_run; [ apply reachable_hopped | ].
  repeat constructor; cbn [valid]; lra.
Qed.

(** C10, as stated, fails in its last sentence.  The controller jumps at
    300 ms and lands on a ledge at 400 ms.  The frame at 500 ms does not
    jump; then the controller walks off the ledge, so that this airborne
    episode does not begin with a jump.  It lands at 600 ms with the jump
    key held: the next frame does not jump, because the flag set at 300 ms
    is cleared only at 650 ms. *)
Lemma walk_off_landing_still_cooling :
  grounded (player hopped) = true /\
  Vector3.y (inputVelocity (player hopped)) = 0 /\
  landedAgain =
    run stillAnimation hopped [Contact false; Elapse 100; Contact true; Key "Space" true] /\
  grounded (player landedAgain) = true /\
  Keyboard.keyMap (keyboard (player landedAgain)) "Space" = true /\
  Vector3.y (inputVelocity (player (step stillAnimation landedAgain (Frame 0.016)))) = 0.
Proof.
  split; [ | split; [ | split; [ | split; [ | split ] ] ] ].
  - rewrite control_grounded, control_hopped. reflexivity.
  - unfold hopped. rewrite frame_impulse_y.
    + rewrite control_onLedge. reflexivity.
    + apply reachable_inv with stillAnimation. exact reachable_onLedge.
  - reflexivity.
  - rewrite control_grounded, control_landedAgain. reflexivity.
  - rewrite control_keyboard, control_landedAgain. reflexivity.
  - rewrite frame_impulse_y.
    + rewrite control_landedAgain. reflexivity.
    + apply reachable_inv with stillAnimation. exact reachable_landedAgain.
Qed.

(** C10, amended.  The cooldown flag goes from off to on only in a frame
    that jumps; [setGrounded] never changes it, the Airborne->Grounded
    transition only schedules its clearing 250 ms later.  Consequently,
    after landing from an airborne episode that began with the flag off
    (so not with a jump, and with no earlier jump still awaiting its
    clearing), a frame with the jump key held jumps at once, with no
    cooldown window. *)
Theorem cooldown_set_only_by_jump anim (s : System) :
  reachable anim s ->
  wait (player s) = false ->
  (forall e, wait (player (step anim s e)) = true ->
             exists delta, e = Frame delta /\ jumps (player s) = true) /\
  (forall g,
     wait (player (setGrounded g s)) = wait (player s) /\
     timeouts (setGrounded g s) =
       (if g && negb (grounded (player s)) then timeouts s ++ [clock s + 250]
        else timeouts s)) /\
  (forall evs delta,
     Forall valid evs -> Forall noContact evs ->
     let landed := run anim s (Contact false :: evs ++ [Contact true]) in
     Keyboard.keyMap (keyboard (player landed)) "Space" = true ->
     Vector3.y (inputVelocity (player (step anim landed (Frame delta)))) = 5 /\
     wait (player (step anim landed (Frame delta))) = true).
Proof.
  intros Hr Hw. split; [ | split ].
  - intros e He. apply (wait_set_by_jump anim s e Hw He).
  - intros g.
    destruct (setGrounded_fields g s) as (Ew & _ & _ & _ & _ & _ & Et & _).
    split; assumption.
  - intros evs delta Hv Hn landed Hk.
    assert (Forall valid (Contact false :: evs ++ [Contact true])) as Hv'.
    { constructor; [ exact I | ]. apply Forall_app. split; [ assumption | ].
      constructor; [ exact I | constructor ]. }
    assert (reachable anim landed) as Hl by (apply reachable_run; assumption).
    assert (c_jumps (control landed) = true) as Hj.
    { rewrite control_keyboard in Hk.
      unfold c_jumps. rewrite Hk, andb_true_r.
      unfold landed in *. rewrite control_run.
      cbn [fold_left]. rewrite fold_left_app. cbn [fold_left].
      assert (airborneIdle (fold_left controlStep evs (controlStep (control s) (Contact false))))
        as (_ & Hw').
      { apply airborneIdle_run; [ assumption | ].
        split; [ reflexivity | ]. cbn [controlStep c_wait control]. exact Hw. }
      cbn [controlStep c_grounded c_wait] in *. rewrite Hw'. reflexivity. }
    split.
    + rewrite frame_impulse_y by (apply reachable_inv with anim; exact Hl).
      rewrite Hj. reflexivity.
    + rewrite control_wait, control_step. cbn [controlStep c_wait].
      rewrite Hj. apply orb_true_r.
Qed.

Lemma cooldown_set_only_by_jump_witness :
  let landed :=
    run stillAnimation walking
      (Contact false :: [Elapse 400; Timeouts; Key "Space" true; Frame 0.016] ++ [Contact true]) in
  Vector3.y (inputVelocity (player (step stillAnimation landed (Frame 0.016)))) = 5 /\
  wait (player (step stillAnimation landed (Frame 0.016))) = true.
Proof.
  assert (reachable stillAnimation walking) as Hr.
  { apply reachable_run; [ apply reachable_ready | ]. repeat constructor. }
  assert (wait (player walking) = false) as Hw.
  { rewrite control_wait, control_walking. reflexivity. }
  destruct (cooldown_set_only_by_jump stillAnimation walking Hr Hw) as (_ & _ & H).
  apply (H [Elapse 400; Timeouts; Key "Space" true; Frame 0.016] 0.016).
  - repeat constructor; cbn [valid]; lra.
  - repeat constructor.
  - rewrite control_keyboard, control_run, control_walking. control_eval. reflexivity.
Defined.

(** * Further properties of the controller *)

(** ** setGrounded *)

(** X1: a call of [setGrounded] with the value the controller already has
    changes nothing: no damping change, no timeout, no collider swap.
    Calling it twice with the same value is the same as calling it once. *)
Theorem setGrounded_redundant (g : bool) (s : System) :
  (grounded (player s) = g -> setGrounded g s = s) /\
  setGrounded g (setGrounded g s) = setGrounded g s.
Proof.
  assert (forall s', grounded (player s') = g -> setGrounded g s' = s') as Hsame.
  { intros s' Hg. unfold setGrounded. rewrite Hg, eqb_reflx. reflexivity. }
  split; [ apply Hsame | ].
  apply Hsame.
  destruct (setGrounded_fields g s) as (_ & _ & _ & _ & Hg & _). exact Hg.
Qed.

Lemma setGrounded_redundant_witness :
  setGrounded true walking = walking /\
  setGrounded false (setGrounded false walking) = setGrounded false walking.
Proof.
  destruct (setGrounded_redundant true walking) as (H1 & _).
  destruct (setGrounded_redundant false walking) as (_ & H2).
  split; [ apply H1; reflexivity | exact H2 ].
Defined.

(** X2: apart from contact events nothing changes the grounded flag, and
    apart from the timeouts nothing turns the cooldown flag off: a frame,
    a key event, a camera turn, a world step or the loading of the avatar
    never does. *)
Theorem flags_change_only_by anim (s : System) (e : event) :
  (grounded (player (step anim s e)) <> grounded (player s) -> exists g, e = Contact g) /\
  (wait (player s) = true -> wait (player (step anim s e)) = false -> e = Timeouts).
Proof.
  rewrite !control_grounded, !control_wait, control_step.
  split.
  - intros H. destruct e; cbn [controlStep c_grounded] in H;
      try (exfalso; apply H; reflexivity).
    exists g. reflexivity.
  - intros Hw H. destruct e; cbn [controlStep c_wait] in H; try congruence.
    rewrite Hw in H. discriminate.
Qed.

Lemma flags_change_only_by_witness :
  let s := run stillAnimation firstJump [Contact false; Elapse 60] in
  wait (player s) = true /\
  wait (player (step stillAnimation s Timeouts)) = false /\
  (exists g, Contact false = Contact g) /\
  Timeouts = Timeouts.
Proof.
  intros s.
  assert (control s =
          mkControl false true 1 (Keyboard.set Keyboard.new "Space" true) 260 [250]) as Hc.
  { unfold s. rewrite control_run, control_firstJump. control_eval.
    repeat f_equal; lra. }
  assert (wait (player s) = true) as Hw.
  { rewrite control_wait, Hc. reflexivity. }
  assert (wait (player (step stillAnimation s Timeouts)) = false) as Hw'.
  { rewrite control_wait, control_step, Hc. control_eval. reflexivity. }
  clearbody s.
  split; [ exact Hw | split; [ exact Hw' | split ] ].
  - destruct (flags_change_only_by stillAnimation firstJump (Contact false)) as (H & _).
    apply H. rewrite !control_grounded, control_step, control_firstJump.
    cbn [controlStep c_grounded]. discriminate.
  - destruct (flags_change_only_by stillAnimation s Timeouts) as (_ & H).
    apply H; assumption.
Defined.

(** ** A cooldown that never ends *)

Lemma stuck_step (c : Control) (e : event) :
  noContact e -> c_wait c = true -> c_timeouts c = [] ->
  c_wait (controlStep c e) = true /\ c_timeouts (controlStep c e) = [].
Proof.
  intros He Hw Ht.
  destruct e; cbn [noContact controlStep c_wait c_timeouts] in *;
    try (split; assumption).
  - rewrite Hw. split; [ reflexivity | assumption ].
  - contradiction.
  - rewrite Ht. split; [ exact Hw | reflexivity ].
Qed.

Lemma stuck_run (evs : list event) (c : Control) :
  Forall noContact evs -> c_wait c = true -> c_timeouts c = [] ->
  c_wait (fold_left controlStep evs c) = true /\
  c_timeouts (fold_left controlStep evs c) = [].
Proof.
  revert c. induction evs as [ | e evs IH ]; intros c Hn Hw Ht; simpl.
  - split; assumption.
  - inversion Hn; subst.
    destruct (stuck_step c e) as (Hw' & Ht'); try assumption.
    apply IH; assumption.
Qed.

(** X3: the timeout that clears the cooldown is scheduled by a landing
    only.  After a jump made while no timeout is pending, as long as no
    contact event arrives (the body never leaves the ground, say under a
    low ceiling), the cooldown flag stays on whatever time passes and
    however often the timeouts run, and no later frame jumps: its impulse
    has no vertical component. *)
Theorem cooldown_needs_a_landing anim (s : System) (delta : R) (evs : list event)
    (delta' : R) :
  reachable anim s -> 0 <= delta ->
  jumps (player s) = true ->
  timeouts s = [] ->
  Forall valid evs -> Forall noContact evs ->
  let s' := run anim (step anim s (Frame delta)) evs in
  wait (player s') = true /\
  jumps (player s') = false /\
  Vector3.y (inputVelocity (player (step anim s' (Frame delta')))) = 0.
Proof.
  intros Hr Hd Hj Ht Hv Hn s'.
  assert (c_wait (control s') = true) as Hw.
  { unfold s'. rewrite control_run.
    apply stuck_run; try assumption.
    rewrite control_step. cbn [controlStep c_wait].
    rewrite <- jumps_control, Hj. apply orb_true_r. }
  assert (c_jumps (control s') = false) as Hj'.
  { unfold c_jumps. rewrite Hw. cbn [negb]. rewrite andb_false_r. reflexivity. }
  split; [ exact Hw | split; [ exact Hj' | ] ].
  rewrite frame_impulse_y.
  - rewrite Hj'. reflexivity.
  - apply reachable_inv with anim. apply reachable_run; [ | assumption ].
    apply reachable_step; assumption.
Qed.

Lemma cooldown_needs_a_landing_witness :
  let s' := run stillAnimation (step stillAnimation settled (Frame 0.016))
              [Elapse 10000; Timeouts; Frame 0.016] in
  wait (player s') = true /\
  jumps (player s') = false /\
  Vector3.y (inputVelocity (player (step stillAnimation s' (Frame 0.016)))) = 0.
Proof.
  apply (cooldown_needs_a_landing stillAnimation settled 0.016
           [Elapse 10000; Timeouts; Frame 0.016] 0.016).
  - exact reachable_settled.
  - lra.
  - rewrite jumps_control, control_settled. reflexivity.
  - change (c_timeouts (control settled) = []). rewrite control_settled. reflexivity.
  - repeat constructor; cbn [valid]; lra.
  - repeat constructor.
Defined.

(** ** Frames in the air *)

(** X4: while the controller is airborne, a frame computes the zero
    impulse whatever keys are held: there is no air control and no jump.
    Applying it does not change the body, and the cooldown flag and the
    acceleration factor are left as they were.  So after the frame the body
    is as it was when it started at height -3 or above, and it is the body
    as [reset()] leaves it (velocity (0,0,0), translation (0,1,0)) when it
    started below -3. *)
Theorem airborne_frame_is_idle anim (delta : R) (p : Player) :
  grounded p = false ->
  impulse delta p = Vector3.mk 0 0 0 /\
  inputVelocity (snd (update anim delta p)) = Vector3.mk 0 0 0 /\
  body (applyYawAndImpulse (localVelocity delta p)) = body p /\
  wait (snd (update anim delta p)) = wait p /\
  accelerationFactor (snd (update anim delta p)) = accelerationFactor p /\
  body (snd (update anim delta p)) =
    (if Rltb (Vector3.y (RigidBody.translation (body p))) (-3)
     then RigidBody.setTranslation
            (RigidBody.setLinvel (body p) (Vector3.mk 0 0 0)) (Vector3.mk 0 1 0)
     else body p).
Proof.
  intros Hg.
  assert (localVelocity delta p = set_inputVelocity (Vector3.mk 0 0 0) p) as Hl.
  { unfold localVelocity. cbn [grounded set_inputVelocity]. rewrite Hg. reflexivity. }
  assert (impulse delta p = Vector3.mk 0 0 0) as Hi.
  { unfold impulse. rewrite Hl. apply applyQuaternion_zero. }
  assert (body (applyYawAndImpulse (localVelocity delta p)) = body p) as Hb.
  { unfold impulse in Hi. unfold applyYawAndImpulse in *.
    cbn [body set_body set_inputVelocity set_quaternion set_euler inputVelocity] in *.
    rewrite Hi, Hl. apply applyImpulse_zero. }
  destruct (update_fields anim delta p) as (_ & _ & Hw & _ & _ & _ & Hv & _).
  repeat match goal with |- _ /\ _ => split end.
  - exact Hi.
  - rewrite Hv. exact Hi.
  - exact Hb.
  - rewrite Hw. unfold jumps. rewrite Hg. apply orb_false_r.
  - rewrite update_accelerationFactor, localVelocity_accelerationFactor, Hg. reflexivity.
  - destruct (core_fields _ _ (update_core anim delta p)) as (_ & _ & _ & _ & _ & -> & _).
    unfold outOfBounds. rewrite Hb.
    destruct (Rltb _ (-3)); [ | exact Hb ].
    unfold reset. cbn [body set_body set_ui]. rewrite Hb. reflexivity.
Qed.

Lemma airborne_frame_is_idle_witness :
  impulse 0.016 (player (run stillAnimation allKeys [Key "Space" true; Contact false]))
  = Vector3.mk 0 0 0 /\
  body (snd (update stillAnimation 0.016
               (player (run stillAnimation allKeys [Key "Space" true; Contact false]))))
  = body (player (run stillAnimation allKeys [Key "Space" true; Contact false])).
Proof.
  destruct (airborne_frame_is_idle stillAnimation 0.016
              (player (run stillAnimation allKeys [Key "Space" true; Contact false])))
    as (H & _ & _ & _ & _ & Hb); [ reflexivity | ].
  split; [ exact H | ].
  rewrite Hb. rewrite Rltb_false; [ reflexivity | ].
  assert (RigidBody.translation
            (body (player (run stillAnimation allKeys [Key "Space" true; Contact false])))
          = Vector3.zero) as -> by reflexivity.
  simpl. lra.
Defined.

(** ** The camera-relative impulse *)

(** The quaternion that [update] builds from the camera yaw. *)
Lemma setFromEuler_yaw_angle (e : Euler.t) (a : R) :
  Euler.x e = 0 -> Euler.z e = 0 ->
  Quaternion.setFromEuler (Euler.setY e a) = Quaternion.mk 0 (sin (a / 2)) 0 (cos (a / 2)).
Proof.
  intros Hx Hz. unfold Quaternion.setFromEuler, Euler.setY; simpl.
  rewrite Hx, Hz. replace (0 / 2) with 0 by lra.
  rewrite sin_0, cos_0. f_equal; ring.
Qed.

Lemma applyQuaternion_yaw (v : Vector3.t) (a : R) :
  Quaternion.applyQuaternion v (Quaternion.mk 0 (sin (a / 2)) 0 (cos (a / 2))) =
  Vector3.mk (Vector3.x v * cos a + Vector3.z v * sin a)
             (Vector3.y v)
             (- Vector3.x v * sin a + Vector3.z v * cos a).
Proof.
  assert (cos a = 1 - 2 * sin (a / 2) * sin (a / 2)) as Hc.
  { replace a with (2 * (a / 2)) at 1 by field. apply cos_2a_sin. }
  assert (sin a = 2 * sin (a / 2) * cos (a / 2)) as Hs.
  { replace a with (2 * (a / 2)) at 1 by field. apply sin_2a. }
  unfold Quaternion.applyQuaternion; simpl.
  rewrite Hc, Hs. f_equal; ring.
Qed.

(** X5: the impulse of a frame is its local input velocity turned about
    the vertical axis by the camera yaw: the vertical component is kept,
    the horizontal ones are rotated by the angle [followCam.yaw.rotation.y]. *)
Theorem impulse_is_yaw_rotation anim (s : System) (delta : R) :
  reachable anim s ->
  let v := inputVelocity (localVelocity delta (player s)) in
  let a := FollowCam.yaw (followCam (player s)) in
  impulse delta (player s) =
  Vector3.mk (Vector3.x v * cos a + Vector3.z v * sin a)
             (Vector3.y v)
             (- Vector3.x v * sin a + Vector3.z v * cos a).
Proof.
  intros Hr v a.
  destruct (reachable_inv anim s Hr) as (Hx & Hz & _).
  unfold impulse.
  destruct (applyYawAndImpulse_fields (localVelocity delta (player s)))
    as (_ & _ & _ & _ & _ & _ & _ & _ & _ & -> & _).
  destruct (localVelocity_fields delta (player s)) as (_ & _ & He & Hc & _).
  rewrite He, Hc.
  rewrite setFromEuler_yaw_angle by assumption.
  apply applyQuaternion_yaw.
Qed.

Lemma impulse_is_yaw_rotation_witness :
  let v := inputVelocity (localVelocity 0.016 (player walking)) in
  let a := FollowCam.yaw (followCam (player walking)) in
  impulse 0.016 (player walking) =
  Vector3.mk (Vector3.x v * cos a + Vector3.z v * sin a)
             (Vector3.y v)
             (- Vector3.x v * sin a + Vector3.z v * cos a).
Proof.
  apply (impulse_is_yaw_rotation stillAnimation walking 0.016).
  apply reachable_run; [ apply reachable_ready | ]. repeat constructor.
Defined.

Lemma directionalKeys_limit (keyMap : string -> bool) (v : Vector3.t) (limit : R) :
  directional keyMap = true -> snd (directionalKeys keyMap v limit) = 9.5.
Proof.
  unfold directional, directionalKeys.
  destruct (keyMap "KeyW"%string), (keyMap "KeyS"%string),
    (keyMap "KeyA"%string), (keyMap "KeyD"%string); simpl; intros H;
    try discriminate; reflexivity.
Qed.

(** [setLength] gives a vector without vertical part the wanted length. *)
Lemma setLength_horizontal (u : Vector3.t) (l : R) :
  Vector3.y u = 0 -> 0 < Vector3.lengthSq u ->
  Vector3.x (Vector3.setLength u l) * Vector3.x (Vector3.setLength u l) +
  Vector3.z (Vector3.setLength u l) * Vector3.z (Vector3.setLength u l) = l * l.
Proof.
  intros Hy Hp.
  unfold Vector3.setLength, Vector3.normalize, Vector3.divideScalar,
    Vector3.multiplyScalar, Vector3.length; simpl.
  pose proof (sqrt_lt_R0 _ Hp) as Hs.
  pose proof (sqrt_sqrt (Vector3.lengthSq u) (Rlt_le _ _ Hp)) as Hq.
  unfold Reqb. destruct (Req_dec_T _ 0) as [ E | _ ]; [ lra | ].
  set (r := sqrt (Vector3.lengthSq u)) in *.
  assert (Vector3.x u * Vector3.x u + Vector3.z u * Vector3.z u = r * r) as Hu.
  { rewrite Hq. unfold Vector3.lengthSq. rewrite Hy. ring. }
  assert (r <> 0) as Hr by lra.
  transitivity ((Vector3.x u * Vector3.x u + Vector3.z u * Vector3.z u) * (l * l) / (r * r)).
  - field. exact Hr.
  - rewrite Hu. field. exact Hr.
Qed.

(** X6: on the ground with a directional key held, the horizontal part
    of the impulse has the length [delta * 9.5 * accelerationFactor] (the
    factor as updated in this frame), whichever keys are held and wherever
    the camera looks: walking diagonally is not faster. *)
Theorem horizontal_speed anim (s : System) (delta : R) :
  reachable anim s ->
  grounded (player s) = true ->
  directional (Keyboard.keyMap (keyboard (player s))) = true ->
  let i := impulse delta (player s) in
  let l := delta * 9.5 * accelerationFactor (snd (update anim delta (player s))) in
  Vector3.x i * Vector3.x i + Vector3.z i * Vector3.z i = l * l.
Proof.
  intros Hr Hg Hk i l.
  unfold i. rewrite (impulse_is_yaw_rotation anim s delta Hr).
  cbn [Vector3.x Vector3.z].
  destruct (localVelocity_direction delta (player s) Hg) as (Hx & Hz).
  cbv zeta in Hx, Hz.
  rewrite directionalKeys_limit in Hx, Hz by assumption.
  rewrite <- (update_accelerationFactor anim) in Hx, Hz. fold l in Hx, Hz.
  rewrite Hx, Hz.
  set (u := fst (directionalKeys (Keyboard.keyMap (keyboard (player s))) (Vector3.mk 0 0 0) 1)).
  assert (Vector3.y u = 0) as Hy by (unfold u; rewrite directionalKeys_y; reflexivity).
  assert (0 < Vector3.lengthSq u) as Hp.
  { pose proof (directionalKeys_lengthSq (Keyboard.keyMap (keyboard (player s))) 1) as H.
    fold u in H. rewrite Hk in H. unfold Rgtb in H.
    destruct (Rlt_dec 0 (Vector3.lengthSq u)); [ assumption | discriminate ]. }
  pose proof (setLength_horizontal u l Hy Hp) as Hl.
  set (a := FollowCam.yaw (followCam (player s))).
  pose proof (sin2_cos2 a) as Hsc. unfold Rsqr in Hsc.
  set (X := Vector3.x (Vector3.setLength u l)) in *.
  set (Z := Vector3.z (Vector3.setLength u l)) in *.
  transitivity ((X * X + Z * Z) * (sin a * sin a + cos a * cos a)).
  - ring.
  - rewrite Hsc, Hl. ring.
Qed.

Lemma horizontal_speed_witness :
  let i := impulse 0.016 (player allKeys) in
  let l := 0.016 * 9.5 * accelerationFactor (snd (update stillAnimation 0.016 (player allKeys))) in
  Vector3.x i * Vector3.x i + Vector3.z i * Vector3.z i = l * l.
Proof.
  apply (horizontal_speed stillAnimation allKeys 0.016).
  - apply reachable_run; [ apply reachable_ready | ]. repeat constructor.
  - reflexivity.
  - reflexivity.
Defined.

(** X7: a jump from standing still (on the ground, cooldown off, jump key
    held, no directional key) has the impulse (0, 5, 0) exactly, for every
    frame time and camera yaw. *)
Theorem standing_jump_impulse anim (s : System) (delta : R) :
  reachable anim s ->
  jumps (player s) = true ->
  directional (Keyboard.keyMap (keyboard (player s))) = false ->
  impulse delta (player s) = Vector3.mk 0 5 0.
Proof.
  intros Hr Hj Hk.
  rewrite (impulse_is_yaw_rotation anim s delta Hr).
  assert (grounded (player s) = true) as Hg.
  { unfold jumps in Hj. destruct (grounded (player s)); [ reflexivity | discriminate ]. }
  destruct (localVelocity_direction delta (player s) Hg) as (Hx & Hz).
  cbv zeta in Hx, Hz.
  rewrite directionalKeys_none in Hx, Hz by assumption.
  cbn [fst snd] in Hx, Hz. rewrite setLength_zero in Hx, Hz.
  destruct (localVelocity_fields delta (player s)) as (_ & _ & _ & _ & _ & _ & Hy & _).
  rewrite Hx, Hz, Hy, Hj. cbn [Vector3.x Vector3.z].
  f_equal; ring.
Qed.

Lemma standing_jump_impulse_witness :
  impulse 0.016 (player settled) = Vector3.mk 0 5 0.
Proof.
  apply (standing_jump_impulse stillAnimation settled 0.016).
  - exact reachable_settled.
  - rewrite jumps_control, control_settled. reflexivity.
  - rewrite control_keyboard, control_settled. reflexivity.
Defined.

(** ** How a frame ends *)

Lemma follow_without_avatar (delta : R) (p : Player) :
  avatar p = None -> animationController (follow delta p) = animationController p.
Proof.
  unfold follow, set_avatar, avatar; simpl.
  destruct (animationController p) as [ [ [ m | ] ] | ] eqn:E; simpl; rewrite ?E; simpl;
    intros Ha; try discriminate; reflexivity.
Qed.

(** X8: [update] returns normally exactly when the avatar is loaded.
    Before that ([init()] not called, or the model not loaded yet) the call
    ends with the TypeError of line 151, after the movement, the bounds
    check and the follow step have taken effect: the impulse is applied, a
    jump sets the cooldown, and the animation controller is not advanced. *)
Theorem update_completion anim (delta : R) (p : Player) :
  fst (update anim delta p) =
    match avatar p with
    | Some _ => Returned
    | None => TypeError
    end /\
  (avatar p = None ->
   snd (update anim delta p) = beforeOrientation delta p /\
   animationController (snd (update anim delta p)) = animationController p /\
   wait (snd (update anim delta p)) = (wait p || jumps p) /\
   inputVelocity (snd (update anim delta p)) = impulse delta p).
Proof.
  pose proof (beforeOrientation_avatar delta p) as Hb.
  split.
  - unfold update. destruct (avatar p); rewrite Hb; reflexivity.
  - intros Ha. rewrite Ha in Hb.
    assert (snd (update anim delta p) = beforeOrientation delta p) as Hu.
    { unfold update. rewrite Hb. reflexivity. }
    destruct (update_fields anim delta p) as (_ & _ & Hw & _ & _ & _ & Hi & _).
    repeat match goal with |- _ /\ _ => split end; try assumption.
    rewrite Hu. unfold beforeOrientation.
    rewrite follow_without_avatar.
    + rewrite outOfBounds_scene.
      destruct (applyYawAndImpulse_scene (localVelocity delta p)) as (-> & _).
      destruct (localVelocity_scene delta p) as (-> & _). reflexivity.
    + unfold avatar. rewrite outOfBounds_scene.
      destruct (applyYawAndImpulse_scene (localVelocity delta p)) as (-> & _).
      destruct (localVelocity_scene delta p) as (-> & _). exact Ha.
Qed.

Lemma update_completion_witness :
  fst (update stillAnimation 0.016 (player spawn)) = TypeError /\
  fst (update stillAnimation 0.016 (player ready)) = Returned /\
  snd (update stillAnimation 0.016 (player spawn)) = beforeOrientation 0.016 (player spawn).
Proof.
  destruct (update_completion stillAnimation 0.016 (player spawn)) as (H1 & H2).
  destruct (update_completion stillAnimation 0.016 (player ready)) as (H3 & _).
  split; [ exact H1 | split; [ exact H3 | ] ].
  apply H2. reflexivity.
Defined.

(** ** The bounds check *)

(** X9: a frame that starts with the body at height -3 or above does not
    reset: it leaves the translation of the body alone (only the world
    step moves the body) and does not notify the UI.  The bound is strict:
    at exactly -3 nothing is reset. *)
Theorem in_bounds_frame anim (delta : R) (p : Player) :
  -3 <= Vector3.y (RigidBody.translation (body p)) ->
  RigidBody.translation (body (snd (update anim delta p))) = RigidBody.translation (body p) /\
  ui (snd (update anim delta p)) = ui p.
Proof.
  intros Hy.
  set (q1 := applyYawAndImpulse (localVelocity delta p)).
  destruct (applyYawAndImpulse_fields (localVelocity delta p))
    as (_ & _ & _ & _ & _ & _ & _ & At & Au & _).
  destruct (localVelocity_fields delta p) as (_ & _ & _ & _ & Lu & _ & _ & _ & Lt).
  fold q1 in At, Au.
  assert (outOfBounds q1 = q1) as Ho.
  { unfold outOfBounds. rewrite At, Lt, Rltb_false by assumption. reflexivity. }
  destruct (core_fields _ _ (update_core anim delta p))
    as (_ & _ & _ & _ & _ & Cb & _ & Cu & _).
  fold q1 in Cb, Cu. rewrite Ho in Cb, Cu.
  rewrite Cb, Cu, At, Au, Lt, Lu. split; reflexivity.
Qed.

Lemma in_bounds_frame_witness :
  let p := player (step stillAnimation ready
                     (WorldStep (Vector3.mk 0 (-3) 0) (Vector3.mk 0 (-9) 0))) in
  RigidBody.translation (body (snd (update stillAnimation 0.016 p))) = Vector3.mk 0 (-3) 0 /\
  ui (snd (update stillAnimation 0.016 p)) = UI.mk 0.
Proof.
  intros p.
  assert (-3 <= Vector3.y (RigidBody.translation (body p))) as Hy.
  { unfold p.
    cbn [step player set_player body set_body RigidBody.translation RigidBody.setLinvel
         RigidBody.setTranslation RigidBody.recomputeMass RigidBody.set_countedMass Vector3.y].
    lra. }
  exact (in_bounds_frame stillAnimation 0.016 p Hy).
Defined.

(** ** The camera pivot *)

Lemma orient_scene (delta : R) (m : Object3D.t) (p : Player) :
  followTarget (orient delta m p) = followTarget p /\
  vector (orient delta m p) = vector p /\
  followCam (orient delta m p) = followCam p.
Proof. unfold orient, set_avatar; split_ifs; repeat split; reflexivity. Qed.

Lemma animate_scene anim (delta : R) (p : Player) :
  followTarget (animate anim delta p) = followTarget p /\
  vector (animate anim delta p) = vector p /\
  followCam (animate anim delta p) = followCam p.
Proof. unfold animate; split_ifs; repeat split; reflexivity. Qed.

(** X10: after a frame, whether it returned or not, the follow target and
    the scratch vector sit at the body's translation, and the camera pivot
    has moved towards it by the fraction [delta * 10] of its offset: the
    offset that remains is [1 - delta * 10] times the old one.  The
    fraction is not clamped: a frame of 0.1 s puts the pivot on the body,
    a longer one carries it past. *)
Theorem camera_pivot_follows anim (delta : R) (p : Player) :
  let p' := snd (update anim delta p) in
  let target := RigidBody.translation (body p') in
  Object3D.position (followTarget p') = target /\
  vector p' = target /\
  FollowCam.pivot (followCam p') =
    Vector3.lerp (FollowCam.pivot (followCam p)) target (delta * 10) /\
  Vector3.subVectors (FollowCam.pivot (followCam p')) target =
    Vector3.multiplyScalar (Vector3.subVectors (FollowCam.pivot (followCam p)) target)
                           (1 - delta * 10).
Proof.
  intros p' target.
  set (q0 := outOfBounds (applyYawAndImpulse (localVelocity delta p))).
  set (q := beforeOrientation delta p).
  assert (q = follow delta q0) as Hq by reflexivity.
  destruct (follow_fields delta q0) as (Fp & Fv & Fc & _).
  destruct (core_fields _ _ (follow_core delta q0)) as (_ & _ & _ & _ & _ & Fb & _).
  rewrite <- Hq in Fp, Fv, Fc, Fb.
  assert (followCam q0 = followCam p) as Hc.
  { unfold q0.
    destruct (outOfBounds_fields (applyYawAndImpulse (localVelocity delta p)))
      as (_ & _ & _ & _ & _ & _ & _ & ->).
    destruct (applyYawAndImpulse_scene (localVelocity delta p)) as (_ & _ & ->).
    destruct (localVelocity_scene delta p) as (_ & _ & ->). reflexivity. }
  rewrite Hc, <- Fb in Fc. rewrite <- Fb in Fp, Fv.
  assert (followTarget p' = followTarget q /\ vector p' = vector q /\
          followCam p' = followCam q /\ body p' = body q) as (Ht & Hv & Hf & Hb).
  { unfold p', update. fold q.
    destruct (avatar q) as [ m | ]; cbn [snd].
    - destruct (animate_scene anim delta (orient delta m q)) as (-> & -> & ->).
      destruct (orient_scene delta m q) as (-> & -> & ->).
      destruct (core_fields _ _ (animate_core anim delta (orient delta m q)))
        as (_ & _ & _ & _ & _ & -> & _).
      destruct (core_fields _ _ (orient_core delta m q)) as (_ & _ & _ & _ & _ & -> & _).
      repeat split; reflexivity.
    - repeat split; reflexivity. }
  unfold target. rewrite Ht, Hv, Hf, Hb.
  split; [ exact Fp | split; [ exact Fv | split; [ exact Fc | ] ] ].
  rewrite Fc. unfold Vector3.subVectors, Vector3.multiplyScalar, Vector3.lerp; simpl.
  f_equal; ring.
Qed.

(** ** The orientation step *)

(** X11: the orientation step never moves the avatar and never changes its
    up vector; and it leaves the avatar exactly as it is when the avatar is
    within 0.0001 of the follow target, or already has the look-at
    orientation. *)
Theorem orientation_step_guard (delta : R) (m : Object3D.t) (p : Player) :
  avatar p = Some m ->
  exists m',
    avatar (orient delta m p) = Some m' /\
    Object3D.position m' = Object3D.position m /\
    Object3D.up m' = Object3D.up m /\
    (Vector3.distanceTo (Object3D.position m) (Object3D.position (followTarget p)) <= 0.0001 ->
     m' = m) /\
    (Quaternion.equals (Object3D.quaternion m)
       (Quaternion.setFromRotationMatrix
          (Matrix4.lookAt (Object3D.position (followTarget p)) (Object3D.position m)
                          (Object3D.up m))) = true ->
     m' = m).
Proof.
  intros Ha. unfold orient.
  cbn [followTarget set_rotationMatrix set_targetQuaternion rotationMatrix targetQuaternion].
  destruct (Rgtb _ 0.0001) eqn:Hd;
    destruct (Quaternion.equals _ _) eqn:He; cbn [andb negb].
  - exists m. repeat split; try reflexivity. exact Ha.
  - eexists. split; [ apply avatar_set_avatar with m; exact Ha | ].
    repeat split; try reflexivity.
    + intros Hle. rewrite Rgtb_false in Hd by assumption. discriminate.
    + intros H. discriminate.
  - exists m. repeat split; try reflexivity. exact Ha.
  - exists m. repeat split; try reflexivity. exact Ha.
Qed.

Lemma orientation_step_guard_witness :
  exists m',
    avatar (orient 0.016 Object3D.new (player ready)) = Some m' /\
    Object3D.position m' = Vector3.zero /\ m' = Object3D.new.
Proof.
  destruct (orientation_step_guard 0.016 Object3D.new (player ready))
    as (m' & H1 & H2 & _ & H4 & _); [ reflexivity | ].
  exists m'. split; [ exact H1 | split; [ exact H2 | ] ].
  apply H4.
  unfold Vector3.distanceTo, Vector3.distanceToSquared; simpl.
  replace ((0 - 0) * (0 - 0) + (0 - 0) * (0 - 0) + (0 - 0) * (0 - 0)) with 0 by ring.
  rewrite sqrt_0. lra.
Defined.

(** ** What holds in every reachable state *)

Lemma reachable_induction anim (P : System -> Prop) :
  (forall position cam u t0, P (boot position cam u t0)) ->
  (forall s e, P s -> P (step anim s e)) ->
  forall s, reachable anim s -> P s.
Proof.
  intros Hboot Hstep s (position & cam & u & t0 & evs & _ & ->).
  generalize (Hboot position cam u t0). generalize (boot position cam u t0).
  induction evs as [ | e evs IH ]; intros s0 H0.
  - exact H0.
  - change (run anim s0 (e :: evs)) with (run anim (step anim s0 e) evs).
    apply IH. apply Hstep. exact H0.
Qed.

Lemma localVelocity_damping (delta : R) (p : Player) :
  RigidBody.linearDamping (body (localVelocity delta p)) = RigidBody.linearDamping (body p).
Proof.
  unfold localVelocity; simpl.
  destruct (grounded p); [ | reflexivity ].
  destruct (directionalKeys _ _ _) as [v limit].
  unfold jump, updateCapsuleHeight, ramp.
  split_ifs; reflexivity.
Qed.

Lemma update_damping anim (delta : R) (p : Player) :
  RigidBody.linearDamping (body (snd (update anim delta p))) = RigidBody.linearDamping (body p).
Proof.
  destruct (core_fields _ _ (update_core anim delta p)) as (_ & _ & _ & _ & _ & -> & _).
  rewrite <- (localVelocity_damping delta p).
  unfold outOfBounds, reset, applyYawAndImpulse.
  destruct (Rltb _ _); reflexivity.
Qed.

Lemma setGrounded_damping (g : bool) (s : System) :
  RigidBody.linearDamping (body (player (setGrounded g s))) =
  if Bool.eqb g (grounded (player s)) then RigidBody.linearDamping (body (player s))
  else if g then 4 else 0.1.
Proof.
  unfold setGrounded.
  destruct (Bool.eqb g (grounded (player s))); cbn [negb]; [ reflexivity | ].
  destruct g; reflexivity.
Qed.

(** X12: the linear damping follows the grounded flag.  In every
    reachable state it is 4 when the controller is grounded; when it is
    airborne it is 0.1, or still the 0 of the freshly built body. *)
Theorem damping_follows_grounded anim (s : System) :
  reachable anim s ->
  (grounded (player s) = true -> RigidBody.linearDamping (body (player s)) = 4) /\
  (grounded (player s) = false ->
   RigidBody.linearDamping (body (player s)) = 0 \/
   RigidBody.linearDamping (body (player s)) = 0.1).
Proof.
  revert s. apply reachable_induction.
  - intros position cam u t0. split; [ discriminate | ]. intros _. left. reflexivity.
  - intros s e (Hg & Ha). destruct e; cbn [step player set_player]; try (split; assumption).
    + destruct (update_fields anim delta (player s)) as (-> & _).
      rewrite update_damping. split; assumption.
    + rewrite setGrounded_damping.
      destruct (setGrounded_fields g s) as (_ & _ & _ & _ & -> & _).
      destruct g, (grounded (player s)); cbn [Bool.eqb].
      * split; assumption.
      * split; [ reflexivity | discriminate ].
      * split; [ discriminate | ]. intros _. right. reflexivity.
      * split; assumption.
    + destruct (runTimeouts_fields s) as (-> & _ & _ & _ & -> & _). split; assumption.
    + destruct (animationController (player s)); split; assumption.
Qed.

Lemma damping_follows_grounded_witness :
  RigidBody.linearDamping (body (player walking)) = 4 /\
  (RigidBody.linearDamping (body (player walkedOff)) = 0 \/
   RigidBody.linearDamping (body (player walkedOff)) = 0.1).
Proof.
  assert (reachable stillAnimation walking) as Hr.
  { apply reachable_run; [ apply reachable_ready | ]. repeat constructor. }
  destruct (damping_follows_grounded stillAnimation walking Hr) as (H1 & _).
  destruct (damping_follows_grounded stillAnimation walkedOff reachable_walkedOff)
    as (_ & H2).
  split.
  - apply H1. rewrite control_grounded, control_walking. reflexivity.
  - apply H2. rewrite control_grounded, control_walkedOff. reflexivity.
Defined.

(** X13: the body always carries exactly one collider, and it is one of
    three capsules of radius 0.15 with friction 0 and collision events:
    the spawn capsule (standing, mass 1), the standing capsule of a landing
    (mass 0.5) or the crouch-jump capsule (mass 0.5). *)
Theorem single_capsule anim (s : System) :
  reachable anim s ->
  exists c,
    RigidBody.colliders (body (player s)) = [c] /\
    In c [capsuleShape originalCapsuleHeight originalCapsuleTranslation 1;
          capsuleShape originalCapsuleHeight originalCapsuleTranslation 0.5;
          capsuleShape jumpCapsuleHeight jumpCapsuleTranslation 0.5].
Proof.
  revert s. apply reachable_induction.
  - intros position cam u t0. eexists. split; [ reflexivity | ]. left. reflexivity.
  - intros s e (c & Hc & Hin).
    destruct e; cbn [step player set_player];
      try (exists c; split; [ exact Hc | exact Hin ]).
    + destruct (update_fields anim delta (player s)) as (_ & _ & _ & _ & _ & _ & _ & ->).
      rewrite Hc. destruct (jumps (player s)).
      * eexists. split; [ reflexivity | ]. right. right. left. reflexivity.
      * exists c. split; [ reflexivity | exact Hin ].
    + destruct (setGrounded_fields g s) as (_ & _ & _ & _ & _ & _ & _ & ->).
      rewrite Hc. destruct (g && negb (grounded (player s))).
      * eexists. split; [ reflexivity | ]. right. left. reflexivity.
      * exists c. split; [ reflexivity | exact Hin ].
    + destruct (runTimeouts_fields s) as (_ & _ & _ & _ & -> & _).
      exists c. split; [ exact Hc | exact Hin ].
    + destruct (animationController (player s));
        exists c; (split; [ exact Hc | exact Hin ]).
Qed.

Lemma single_capsule_witness :
  exists c,
    RigidBody.colliders (body (player jumpedOff)) = [c] /\
    In c [capsuleShape originalCapsuleHeight originalCapsuleTranslation 1;
          capsuleShape originalCapsuleHeight originalCapsuleTranslation 0.5;
          capsuleShape jumpCapsuleHeight jumpCapsuleTranslation 0.5].
Proof.
  apply (single_capsule stillAnimation jumpedOff). exact reachable_jumpedOff.
Defined.

(** ** The avatar's position *)

Lemma orientation_step_guard_aux (delta : R) (m : Object3D.t) (p : Player) :
  avatar p = Some m ->
  exists m',
    avatar (orient delta m p) = Some m' /\
    Object3D.position m' = Object3D.position m /\
    Object3D.up m' = Object3D.up m.
Proof.
  intros Ha. unfold orient.
  match goal with
  | |- context [if ?b then _ else _] => destruct b
  end.
  - eexists. split; [ apply avatar_set_avatar with m; exact Ha | ].
    split; reflexivity.
  - exists m. split; [ exact Ha | split; reflexivity ].
Qed.

(** X14: with an avatar loaded, the frame reaches the end of the
    orientation step with the avatar moved towards the body's translation
    by the fraction [delta * 20] of its offset (twice the camera pivot's
    fraction), and with its up vector unchanged. *)
Theorem avatar_follows (delta : R) (p : Player) (m : Object3D.t) :
  avatar p = Some m ->
  exists p' m',
    afterOrientation delta p = Some p' /\
    avatar p' = Some m' /\
    Object3D.position m' =
      Vector3.lerp (Object3D.position m) (RigidBody.translation (body p')) (delta * 20) /\
    Object3D.up m' = Object3D.up m.
Proof.
  intros Ha.
  pose proof (beforeOrientation_avatar delta p) as Hb. rewrite Ha in Hb.
  unfold afterOrientation. rewrite Hb.
  destruct (orientation_step_guard_aux delta _ (beforeOrientation delta p) Hb)
    as (m' & Hm & Hp & Hu).
  eexists. exists m'. split; [ reflexivity | ].
  split; [ exact Hm | ].
  destruct (core_fields _ _ (orient_core delta
              (Object3D.set_position
                 (Vector3.lerp (Object3D.position m)
                    (RigidBody.translation
                       (body (outOfBounds (applyYawAndImpulse (localVelocity delta p)))))
                    (delta * 20)) m)
              (beforeOrientation delta p))) as (_ & _ & _ & _ & _ & -> & _).
  unfold beforeOrientation.
  destruct (core_fields _ _ (follow_core delta
              (outOfBounds (applyYawAndImpulse (localVelocity delta p)))))
    as (_ & _ & _ & _ & _ & -> & _).
  split; [ rewrite Hp; reflexivity | rewrite Hu; reflexivity ].
Qed.

Lemma avatar_follows_witness :
  exists p' m',
    afterOrientation 0.016 (player walking) = Some p' /\
    avatar p' = Some m' /\
    Object3D.position m' =
      Vector3.lerp Vector3.zero (RigidBody.translation (body p')) (0.016 * 20) /\
    Object3D.up m' = Vector3.mk 0 1 0.
Proof.
  apply (avatar_follows 0.016 (player walking) Object3D.new). reflexivity.
Defined.
